(** * Lutris configuration v2: cascading lookups (lutris/config2.py, lutris/config.py)

    A shallow embedding of the cascading configuration engine.  Python
    dictionaries are objects with identity, so they live in a heap indexed
    by locations; a configuration holds locations, never copies.  Exceptions
    are results; every method that mutates returns the new heap and, where
    attributes of the configuration change, the new configuration. *)

From Stdlib Require Import ZArith Ascii String.
From stdpp Require Import base option gmap strings list fin_maps.

Local Open Scope Z_scope.

(** ** Values, exceptions, the dictionary heap *)

Abbreviation loc := positive (only parsing).

Inductive value :=
  | VNone
  | VBool (b : bool)
  | VInt (n : Z)
  | VStr (s : string)
  | VDict (l : loc).

Inductive exn :=
  | KeyError          (* LookupMiss *)
  | ValueError        (* ValidationError: "Config value validation failed." *)
  | NameError
  | AttributeError
  | TypeError
  | IOError
  | YAMLError
  | InvalidRunner
  | PlainException.   (* Exception("Cannot change game_config_id later") *)

Inductive result (A : Type) :=
  | Ok (a : A)
  | Raise (e : exn).
Arguments Ok {A} a.
Arguments Raise {A} e.

Abbreviation pydict := (gmap string value) (only parsing).
Abbreviation heap := (gmap positive (gmap string value)) (only parsing).

(** The dict object stored at [l]. *)
Definition dict_at (h : heap) (l : loc) : pydict := default ∅ (h !! l).

(** [key in d] *)
Definition dict_contains (h : heap) (l : loc) (key : string) : bool :=
  match dict_at h l !! key with Some _ => true | None => false end.

(** [d[key]] *)
Definition dict_getitem (h : heap) (l : loc) (key : string) : result value :=
  match dict_at h l !! key with Some v => Ok v | None => Raise KeyError end.

(** [d[key] = v] *)
Definition dict_setitem (h : heap) (l : loc) (key : string) (v : value) : heap :=
  <[l := <[key := v]> (dict_at h l)]> h.

(** [del d[key]] *)
Definition dict_delitem (h : heap) (l : loc) (key : string) : result unit * heap :=
  match dict_at h l !! key with
  | Some _ => (Ok tt, <[l := delete key (dict_at h l)]> h)
  | None => (Raise KeyError, h)
  end.

(** A new dict object with contents [d]. *)
Definition alloc_dict (h : heap) (d : pydict) : loc * heap :=
  let l := fresh (dom h) in (l, <[l := d]> h).

(** [d.setdefault(key, {})]: the fresh [{}] is kept only when [key] is absent. *)
Definition dict_setdefault_new (h : heap) (l : loc) (key : string) : heap :=
  match dict_at h l !! key with
  | Some _ => h
  | None => let '(n, h1) := alloc_dict h ∅ in dict_setitem h1 l key (VDict n)
  end.

(** ** Option definitions and catalogs *)

(** The callables a definition may name.  User functions are referred to by
    an index into the callback environment; a definition can also name the
    class's own [cascade_getter] and [transform_getter] as its getter. *)
Inductive getter :=
  | CustomGetter (g : nat)
  | CascadeGetter
  | TransformGetter.

(** One option definition: the keys ["default"], ["validate"], ["getter"],
    ["cascade"], ["transform"], each present or not. *)
Record option_def := OptionDef {
  opt_default : option value;
  opt_validate : option nat;
  opt_getter : option getter;
  opt_cascade : option bool;
  opt_transform : option nat }.

Abbreviation catalog := (list (string * option_def)) (only parsing).

(** [OrderedDict.__setitem__]: a known key keeps its place. *)
Fixpoint od_set (od : catalog) (key : string) (d : option_def) : catalog :=
  match od with
  | [] => [(key, d)]
  | (k, d0) :: rest =>
      if decide (k = key) then (k, d) :: rest else (k, d0) :: od_set rest key d
  end.

(** [OrderedDict.get] *)
Fixpoint od_get (od : catalog) (key : string) : option option_def :=
  match od with
  | [] => None
  | (k, d) :: rest => if decide (k = key) then Some d else od_get rest key
  end.

(** [makedef(options)]: each option is paired with its ["option"] name. *)
Definition makedef (options : list (string * option_def)) : catalog :=
  fold_left (fun od opt => od_set od (fst opt) (snd opt)) options [].

(** ** Configurations *)

(** A configuration holds its parent, and the parent its own: the parent
    chain of a configuration is a value, and a call that changes an
    attribute of an ancestor (a read can fill an ancestor's caches) returns
    the chain with that ancestor updated.

    What [cascade(dict, parent)] returns: the dict itself, or a
    [CascadingProxy] over it.  The proxy's [parent] attribute is the
    constructor's [parent] argument, the same object the configuration keeps
    as [self.parent]; neither is ever reassigned, so the proxy records [this]
    only and its parent is read from the configuration. *)
Inductive view :=
  | Plain (d : loc)
  | Proxy (this : loc).

(** The Python class of a configuration object with the attributes its
    constructor adds. *)
Inductive klass :=
  | KCascadingConfig
  | KConfigFile (filename : string)
  | KSystemConfig (filename : string)
  | KRunnerConfig (filename : string) (runner_slug : option string)
  | KGameConfig (filename : string) (game_config_id : option string)
  | KTempGameConfig.

#[warnings="-register-all"]
Inductive CascadingConfig := mkConfig {
  cls : klass;
  data : loc;
  definition : catalog;
  config : view;
  parent : option CascadingConfig;
  defaults : gmap string value;
  validate_cache : gmap string nat;
  getter_cache : gmap string getter;
  cascade_cache : gmap string value }.

Definition set_data (c : CascadingConfig) (d : loc) : CascadingConfig :=
  mkConfig (cls c) d (definition c) (config c) (parent c) (defaults c)
           (validate_cache c) (getter_cache c) (cascade_cache c).

Definition set_config (c : CascadingConfig) (v : view) : CascadingConfig :=
  mkConfig (cls c) (data c) (definition c) v (parent c) (defaults c)
           (validate_cache c) (getter_cache c) (cascade_cache c).

(** The parent object after a call that changed its attributes. *)
Definition set_parent (c : CascadingConfig) (p : option CascadingConfig) : CascadingConfig :=
  mkConfig (cls c) (data c) (definition c) (config c) p (defaults c)
           (validate_cache c) (getter_cache c) (cascade_cache c).

Definition set_defaults (c : CascadingConfig) (m : gmap string value) : CascadingConfig :=
  mkConfig (cls c) (data c) (definition c) (config c) (parent c) m
           (validate_cache c) (getter_cache c) (cascade_cache c).

Definition set_validate_cache (c : CascadingConfig) (m : gmap string nat) : CascadingConfig :=
  mkConfig (cls c) (data c) (definition c) (config c) (parent c) (defaults c)
           m (getter_cache c) (cascade_cache c).

Definition set_getter_cache (c : CascadingConfig) (m : gmap string getter) : CascadingConfig :=
  mkConfig (cls c) (data c) (definition c) (config c) (parent c) (defaults c)
           (validate_cache c) m (cascade_cache c).

Definition set_cascade_cache (c : CascadingConfig) (m : gmap string value) : CascadingConfig :=
  mkConfig (cls c) (data c) (definition c) (config c) (parent c) (defaults c)
           (validate_cache c) (getter_cache c) m.

(** [cascade(dict, parent)] *)
Definition cascade (dict : loc) (parent : option CascadingConfig) : view :=
  match parent with
  | None => Plain dict
  | Some _ => Proxy dict
  end.

(** The user's callables.  They receive the configuration (and through it
    the heap) and may raise; they are modelled as observers. *)
Record callbacks := Callbacks {
  call_getter : nat -> heap -> CascadingConfig -> string -> result value;
  call_validate : nat -> heap -> CascadingConfig -> string -> value -> result bool;
  call_transform : nat -> heap -> CascadingConfig -> string -> value -> result value }.

(** ** Building the definition caches *)

(** [build_definition_cache(name)]: the parent's cache, then this catalog's
    entries that have the key [name]. *)
Fixpoint build_definition_cache {A : Type} (name : option_def -> option A)
    (self : CascadingConfig) : gmap string A :=
  let cache :=
    match parent self with
    | Some p => build_definition_cache name p
    | None => ∅
    end in
  fold_left
    (fun cache kd =>
       match name (snd kd) with
       | Some x => <[fst kd := x]> cache
       | None => cache
       end)
    (definition self) cache.

(** One turn of the loop of [build_getter_cache].  The bare names
    [cascade_getter] and [transform_getter] are bound neither in the method
    nor in the module, so evaluating them raises [NameError]. *)
Definition getter_cache_step (cache : result (gmap string getter))
    (kd : string * option_def) : result (gmap string getter) :=
  match cache with
  | Raise e => Raise e
  | Ok cache =>
      match opt_getter (snd kd) with
      | Some g => Ok (<[fst kd := g]> cache)
      | None =>
          match opt_cascade (snd kd) with
          | Some true => Raise NameError
          | _ =>
              match opt_transform (snd kd) with
              | Some _ => Raise NameError
              | None => Ok cache
              end
          end
      end
  end.

(** [build_getter_cache()] *)
Fixpoint build_getter_cache (self : CascadingConfig) : result (gmap string getter) :=
  let cache :=
    match parent self with
    | Some p => build_getter_cache p
    | None => Ok ∅
    end in
  fold_left getter_cache_step (definition self) cache.

(** [CascadingConfig.__init__(definition, data, parent)], for an object of
    class [k]. *)
Definition CascadingConfig_init (k : klass) (h : heap) (definition : catalog)
    (data : option loc) (parent : option CascadingConfig)
    : result CascadingConfig * heap :=
  let '(d, h) := match data with
                 | None => alloc_dict h ∅
                 | Some d => (d, h)
                 end in
  let self := mkConfig k d definition (cascade d parent) parent ∅ ∅ ∅ ∅ in
  let self := set_defaults self (build_definition_cache opt_default self) in
  let self := set_validate_cache self (build_definition_cache opt_validate self) in
  match build_getter_cache self with
  | Raise e => (Raise e, h)
  | Ok cache => (Ok (set_cascade_cache (set_getter_cache self cache) ∅), h)
  end.

(** ** Access *)

Section Access.
Variable env : callbacks.

(** [key in self.config]: [dict.__contains__] or
    [CascadingProxy.__contains__], the latter asking the parent. *)
Definition view_contains (h : heap) (v : view) (in_parent : result bool)
    (key : string) : result bool :=
  match v with
  | Plain d => Ok (dict_contains h d key)
  | Proxy this => if dict_contains h this key then Ok true else in_parent
  end.

(** [CascadingConfig.__contains__]; a proxy whose parent is [None] cannot
    answer ([key in None] is a [TypeError]). *)
Fixpoint contains (h : heap) (self : CascadingConfig) (key : string) : result bool :=
  view_contains h (config self)
    (match parent self with
     | Some p => contains h p key
     | None => Raise TypeError
     end) key.

(** A read returns its result, the heap and the object it was called on. *)
Definition read (S : Type) : Type := result value * heap * S.

(** [self.config[key]]: [dict.__getitem__] or [CascadingProxy.__getitem__];
    [parent_getitem] is [self.parent.__getitem__]. *)
Definition view_getitem (v : view) (par : option CascadingConfig)
    (parent_getitem : heap -> string -> read (option CascadingConfig))
    (h : heap) (key : string) : read (option CascadingConfig) :=
  match v with
  | Plain d => (dict_getitem h d key, h, par)
  | Proxy this =>
      if dict_contains h this key then (dict_getitem h this key, h, par)
      else parent_getitem h key
  end.

(** [cascade_getter(self, key)].  [self.parent] is an object without
    [__bool__] or [__len__], so it is true whenever it is not [None];
    no class defines [get_cascade]. *)
Definition cascade_getter (h : heap) (self : CascadingConfig) (key : string)
    : read CascadingConfig :=
  match cascade_cache self !! key with
  | Some cas => (Ok cas, h, self)
  | None =>
      let h := dict_setdefault_new h (data self) key in
      match parent self with
      | Some _ =>
          match dict_getitem h (data self) key with
          | Ok _ => (Raise AttributeError, h, self)
          | Raise e => (Raise e, h, self)
          end
      | None =>
          match dict_getitem h (data self) key with
          | Ok cas => (Ok cas, h, set_cascade_cache self (<[key := cas]> (cascade_cache self)))
          | Raise e => (Raise e, h, self)
          end
      end
  end.

(** [transform_getter(self, key)] *)
Definition transform_getter
    (parent_getitem : heap -> string -> read (option CascadingConfig))
    (h : heap) (self : CascadingConfig) (key : string) : read CascadingConfig :=
  match contains h self key with
  | Raise e => (Raise e, h, self)
  | Ok true =>
      match od_get (definition self) key with
      | None => (Raise KeyError, h, self)
      | Some defn =>
          match opt_transform defn with
          | None => (Raise KeyError, h, self)
          | Some t =>
              let '(r, h, par) := view_getitem (config self) (parent self) parent_getitem h key in
              let self := set_parent self par in
              match r with
              | Raise e => (Raise e, h, self)
              | Ok raw => (call_transform env t h self key raw, h, self)
              end
          end
      end
  | Ok false => (Ok (default VNone (defaults self !! key)), h, self)
  end.

(** [getter(self, key)] *)
Definition invoke_getter (g : getter)
    (parent_getitem : heap -> string -> read (option CascadingConfig))
    (h : heap) (self : CascadingConfig) (key : string) : read CascadingConfig :=
  match g with
  | CustomGetter f => (call_getter env f h self key, h, self)
  | CascadeGetter => cascade_getter h self key
  | TransformGetter => transform_getter parent_getitem h self key
  end.

(** [except KeyError: if key in self.defaults: return self.defaults[key]; raise] *)
Definition default_fallback (self : CascadingConfig) (key : string)
    (r : result value) : result value :=
  match r with
  | Raise KeyError =>
      match defaults self !! key with
      | Some d => Ok d
      | None => Raise KeyError
      end
  | _ => r
  end.

(** The body of [CascadingConfig.__getitem__]. *)
Definition getitem_body
    (parent_getitem : heap -> string -> read (option CascadingConfig))
    (h : heap) (self : CascadingConfig) (key : string) : read CascadingConfig :=
  match getter_cache self !! key with
  | Some g =>
      let '(r, h, self) := invoke_getter g parent_getitem h self key in
      (default_fallback self key r, h, self)
  | None =>
      let '(r, h, par) := view_getitem (config self) (parent self) parent_getitem h key in
      let self := set_parent self par in
      (default_fallback self key r, h, self)
  end.

(** [CascadingConfig.__getitem__]; subscripting a [None] parent is a
    [TypeError]. *)
Fixpoint getitem (h : heap) (self : CascadingConfig) (key : string) {struct self}
    : read CascadingConfig :=
  getitem_body
    (match parent self with
     | Some p => fun h key => let '(r, h, p) := getitem h p key in (r, h, Some p)
     | None => fun h key => (Raise TypeError, h, None)
     end) h self key.

(** [self.parent[key]] *)
Definition parent_getitem (par : option CascadingConfig)
    : heap -> string -> read (option CascadingConfig) :=
  match par with
  | Some p => fun h key => let '(r, h, p) := getitem h p key in (r, h, Some p)
  | None => fun h key => (Raise TypeError, h, None)
  end.

End Access.

(** ** Modification *)

Section Modification.
Variable env : callbacks.

(** [self.config[key] = value]: [dict.__setitem__] or
    [CascadingProxy.__setitem__], which writes to [this]. *)
Definition view_setitem (h : heap) (v : view) (key : string) (x : value) : heap :=
  match v with
  | Plain d => dict_setitem h d key x
  | Proxy this => dict_setitem h this key x
  end.

(** [del self.config[key]] *)
Definition view_delitem (h : heap) (v : view) (key : string) : result unit * heap :=
  match v with
  | Plain d => dict_delitem h d key
  | Proxy this => dict_delitem h this key
  end.

(** [CascadingConfig.__setitem__] *)
Definition setitem (h : heap) (self : CascadingConfig) (key : string) (x : value)
    : result unit * heap :=
  match validate_cache self !! key with
  | Some f =>
      match call_validate env f h self key x with
      | Raise e => (Raise e, h)
      | Ok false => (Raise ValueError, h)
      | Ok true => (Ok tt, view_setitem h (config self) key x)
      end
  | None => (Ok tt, view_setitem h (config self) key x)
  end.

(** [CascadingConfig.__delitem__] *)
Definition delitem (h : heap) (self : CascadingConfig) (key : string)
    : result unit * heap :=
  view_delitem h (config self) key.

(** [CascadingConfig.replace(other)].  Only a proxy has a [this]
    attribute to assign; a dict has none. *)
Definition replace (self : CascadingConfig) (other : loc) : result unit * CascadingConfig :=
  let self := set_data self other in
  match parent self with
  | Some _ =>
      match config self with
      | Proxy _ => (Ok tt, set_config self (Proxy other))
      | Plain _ => (Raise AttributeError, self)
      end
  | None => (Ok tt, self)
  end.

End Modification.

(** ** Files *)

(** The files under the configuration directory: what [yaml.load] makes of
    each file that exists ([None] for an empty document). *)
Abbreviation filesystem := (gmap string (result (option (gmap string value)))) (only parsing).

(** [os.path.exists(filename)] *)
Definition path_exists (fs : filesystem) (filename : string) : bool :=
  match fs !! filename with Some _ => true | None => false end.

(** [_load_file(filename)]: a loaded mapping is a new dict object. *)
Definition _load_file (fs : filesystem) (h : heap) (filename : string)
    : result (option loc) * heap :=
  match fs !! filename with
  | None => (Raise IOError, h)
  | Some (Raise e) => (Raise e, h)
  | Some (Ok None) => (Ok None, h)
  | Some (Ok (Some d)) => let '(l, h) := alloc_dict h d in (Ok (Some l), h)
  end.

(** [ConfigFile.__init__(definition, filename, parent, data)], for an object
    of the class that [k] makes from the file name. *)
Definition ConfigFile_init (k : string -> klass) (fs : filesystem) (h : heap)
    (definition : catalog) (filename : string)
    (parent : option CascadingConfig) (data : option loc)
    : result CascadingConfig * heap :=
  let '(loaded, h) :=
    match data with
    | None =>
        if path_exists fs filename then _load_file fs h filename
        else (Ok None, h)
    | Some d => (Ok (Some d), h)
    end in
  match loaded with
  | Raise e => (Raise e, h)
  | Ok data => CascadingConfig_init (k filename) h definition data parent
  end.

(** ** The Lutris configuration files *)

(** [b.startswith("/")] *)
Definition starts_with_slash (b : string) : bool :=
  match b with
  | String c _ => bool_decide (c = "/"%char)
  | EmptyString => false
  end.

(** [path.endswith("/")] *)
Fixpoint ends_with_slash (path : string) : bool :=
  match path with
  | EmptyString => false
  | String c EmptyString => bool_decide (c = "/"%char)
  | String _ rest => ends_with_slash rest
  end.

(** One component of [os.path.join] (posixpath). *)
Definition path_join_step (path b : string) : string :=
  if starts_with_slash b then b
  else if bool_decide (path = "") || ends_with_slash path then path +:+ b
  else path +:+ "/" +:+ b.

(** [os.path.join(a, *p)] *)
Definition os_path_join (a : string) (p : list string) : string :=
  fold_left path_join_step p a.

(** ["%s" % x] for a string or [None]. *)
Definition fmt_s (x : option string) : string :=
  match x with
  | Some s => s
  | None => "None"
  end.

(** Truth value of a string or [None]. *)
Definition truthy (x : option string) : bool :=
  match x with
  | Some s => negb (bool_decide (s = ""))
  | None => false
  end.

(** Temporary config name for games that haven't been created yet. *)
Definition TEMP_CONFIG : string := "TEMP_CONFIG".

Section Lutris.
(** [settings.CONFIG_DIR], [sysoptions.system_options] and
    [runners.import_runner] are defined outside these two modules;
    [import_runner] yields the runner's [runner_options] and
    [game_options], or raises. *)
Variable CONFIG_DIR : string.
Variable system_options : list (string * option_def).
Variable import_runner :
  string -> result (list (string * option_def) * list (string * option_def)).

(** [SystemConfig()] *)
Definition SystemConfig_init (fs : filesystem) (h : heap)
    : result CascadingConfig * heap :=
  ConfigFile_init KSystemConfig fs h (makedef system_options)
    (os_path_join CONFIG_DIR ["system.yml"]) None None.

(** [RunnerConfig(runner_slug, options, parent)] *)
Definition RunnerConfig_init (fs : filesystem) (h : heap)
    (runner_slug : option string) (options : list (string * option_def))
    (parent : option CascadingConfig) : result CascadingConfig * heap :=
  ConfigFile_init (fun f => KRunnerConfig f runner_slug) fs h (makedef options)
    (os_path_join CONFIG_DIR ["runners"; fmt_s runner_slug +:+ ".yml"]) parent None.

(** [GameConfig(game_config_id, options, parent, data, definition)];
    [makedef(None)] is a [TypeError]. *)
Definition GameConfig_init (fs : filesystem) (h : heap)
    (game_config_id : option string) (options : option (list (string * option_def)))
    (parent : option CascadingConfig) (data : option loc)
    (definition : option catalog) : result CascadingConfig * heap :=
  let defn :=
    match definition with
    | Some d => Ok d
    | None =>
        match options with
        | Some o => Ok (makedef o)
        | None => Raise TypeError
        end
    end in
  match defn with
  | Raise e => (Raise e, h)
  | Ok d =>
      ConfigFile_init (fun f => KGameConfig f game_config_id) fs h d
        (os_path_join CONFIG_DIR ["games/" +:+ fmt_s game_config_id +:+ ".yml"])
        parent data
  end.

(** [TempGameConfig(options, parent)] *)
Definition TempGameConfig_init (h : heap) (options : list (string * option_def))
    (parent : option CascadingConfig) : result CascadingConfig * heap :=
  CascadingConfig_init KTempGameConfig h (makedef options) None parent.

(** [self.assign_id(game_config_id)]; only [TempGameConfig] defines it. *)
Definition assign_id (fs : filesystem) (h : heap) (self : CascadingConfig)
    (game_config_id : option string) : result CascadingConfig * heap :=
  match cls self with
  | KTempGameConfig =>
      GameConfig_init fs h game_config_id None (parent self)
        (Some (data self)) (Some (definition self))
  | _ => (Raise AttributeError, h)
  end.

(** The legacy wrapper [LutrisConfig].  Its level objects form one chain:
    [config] is the deepest level built, [runner_level] and [system_level]
    are that object or its ancestors, and [game_level] exists only at level
    ["game"]. *)
Record LutrisConfig := mkLutrisConfig {
  _game_config_id : option string;
  runner_slug : option string;
  level : string;
  lc_config : CascadingConfig }.

(** [self.game_level] *)
Definition game_level (self : LutrisConfig) : result CascadingConfig :=
  if decide (level self = "game") then Ok (lc_config self) else Raise AttributeError.

(** [self.runner_level] *)
Definition runner_level (self : LutrisConfig) : result CascadingConfig :=
  if decide (level self = "system") then Raise AttributeError
  else if decide (level self = "game") then
    match parent (lc_config self) with
    | Some p => Ok p
    | None => Raise AttributeError
    end
  else Ok (lc_config self).

(** [LutrisConfig(runner_slug, game_config_id, level)] *)
Definition LutrisConfig_init (fs : filesystem) (h : heap)
    (runner_slug game_config_id level : option string)
    : result LutrisConfig * heap :=
  let lvl :=
    if truthy level then fmt_s level
    else if truthy game_config_id then "game"
    else if truthy runner_slug then "runner"
    else "system" in
  let options :=
    if truthy runner_slug then import_runner (fmt_s runner_slug)
    else Ok ([], []) in
  match options with
  | Raise e => (Raise e, h)
  | Ok (runner_options, game_options) =>
      match SystemConfig_init fs h with
      | (Raise e, h) => (Raise e, h)
      | (Ok system, h) =>
          if decide (lvl = "system") then
            (Ok (mkLutrisConfig game_config_id runner_slug lvl system), h)
          else
            match RunnerConfig_init fs h runner_slug runner_options (Some system) with
            | (Raise e, h) => (Raise e, h)
            | (Ok runner, h) =>
                if decide (lvl = "game") then
                  let game :=
                    if decide (game_config_id = Some TEMP_CONFIG)
                    then TempGameConfig_init h game_options (Some runner)
                    else GameConfig_init fs h game_config_id (Some game_options)
                           (Some runner) None None in
                  match game with
                  | (Raise e, h) => (Raise e, h)
                  | (Ok game, h) =>
                      (Ok (mkLutrisConfig game_config_id runner_slug lvl game), h)
                  end
                else (Ok (mkLutrisConfig game_config_id runner_slug lvl runner), h)
            end
      end
  end.

(** The setter of the property [game_config_id]. *)
Definition set_game_config_id (fs : filesystem) (h : heap) (self : LutrisConfig)
    (value : option string) : result unit * heap * LutrisConfig :=
  if decide (_game_config_id self = Some TEMP_CONFIG) then
    match game_level self with
    | Raise e => (Raise e, h, self)
    | Ok game =>
        match assign_id fs h game value with
        | (Raise e, h) => (Raise e, h, self)
        | (Ok game, h) =>
            (Ok tt, h, mkLutrisConfig value (runner_slug self) (level self) game)
        end
    end
  else (Raise PlainException, h, self).

End Lutris.

(** ** Further methods of the configuration classes *)

Section MoreAccess.
Variable env : callbacks.

(** [CascadingProxy.get(key, default)], and [dict.get] where [self.config]
    is the dict itself: the lookup with [KeyError] answered by [default]. *)
Definition view_get (v : view) (par : option CascadingConfig)
    (parent_getitem : heap -> string -> read (option CascadingConfig))
    (h : heap) (key : string) (dflt : value) : read (option CascadingConfig) :=
  let '(r, h, par) := view_getitem v par parent_getitem h key in
  (match r with
   | Raise KeyError => Ok dflt
   | _ => r
   end, h, par).

(** [CascadingConfig.get(key, default)] *)
Definition get (h : heap) (self : CascadingConfig) (key : string) (dflt : value)
    : read CascadingConfig :=
  let '(r, h, self) := getitem env h self key in
  (match r with
   | Raise KeyError => Ok dflt
   | _ => r
   end, h, self).

(** [CascadingConfig.get_nodefaults(key)] *)
Definition get_nodefaults (h : heap) (self : CascadingConfig) (key : string)
    : read CascadingConfig :=
  match getter_cache self !! key with
  | Some g => invoke_getter env g (parent_getitem env (parent self)) h self key
  | None =>
      let '(r, h, par) :=
        view_getitem (config self) (parent self) (parent_getitem env (parent self)) h key in
      (r, h, set_parent self par)
  end.

End MoreAccess.

(** [d.update(other)] for a dict [other]: its entries overwrite. *)
Definition dict_update (h : heap) (l other : loc) : heap :=
  <[l := dict_at h other ∪ dict_at h l]> h.

(** [self.config.update(other)]: [dict.update] or [CascadingProxy.update],
    which updates [this]. *)
Definition view_update (h : heap) (v : view) (other : loc) : heap :=
  match v with
  | Plain d => dict_update h d other
  | Proxy this => dict_update h this other
  end.

(** [CascadingConfig.update(other)]; it returns [self]. *)
Definition update (h : heap) (self : CascadingConfig) (other : loc) : heap :=
  view_update h (config self) other.

(** [CascadingConfig.get_definition(key)], without a name: the entry of the
    nearest catalog of the chain that defines the key; [None] stands for
    the method returning [None]. *)
Fixpoint get_definition (self : CascadingConfig) (key : string) : option option_def :=
  match od_get (definition self) key with
  | Some d => Some d
  | None =>
      match parent self with
      | Some p => get_definition p key
      | None => None
      end
  end.

(** [CascadingConfig.get_definition(key, name)]: where this catalog defines
    the key, its field [name] or [None]; the parent is asked only where
    this catalog does not define the key. *)
Fixpoint get_definition_field {A : Type} (name : option_def -> option A)
    (self : CascadingConfig) (key : string) : option A :=
  match od_get (definition self) key with
  | Some d => name d
  | None =>
      match parent self with
      | Some p => get_definition_field name p key
      | None => None
      end
  end.

(** [CascadingConfig.from_file(definition, file, parent)], called on the
    class [CascadingConfig] itself. *)
Definition from_file (fs : filesystem) (h : heap) (definition : catalog)
    (file : string) (parent : option CascadingConfig)
    : result CascadingConfig * heap :=
  match _load_file fs h file with
  | (Raise e, h) => (Raise e, h)
  | (Ok data, h) => CascadingConfig_init KCascadingConfig h definition data parent
  end.

(** [CascadingConfig.update_from_file(file)]; [update(None)] is a
    [TypeError]. *)
Definition update_from_file (fs : filesystem) (h : heap) (self : CascadingConfig)
    (file : string) : result unit * heap :=
  match _load_file fs h file with
  | (Raise e, h) => (Raise e, h)
  | (Ok None, h) => (Raise TypeError, h)
  | (Ok (Some other), h) => (Ok tt, update h self other)
  end.

(** The attribute [filename], which [ConfigFile.__init__] sets. *)
Definition filename (self : CascadingConfig) : result string :=
  match cls self with
  | KConfigFile f | KSystemConfig f | KRunnerConfig f _ | KGameConfig f _ => Ok f
  | KCascadingConfig | KTempGameConfig => Raise AttributeError
  end.

(** ** Further methods of the legacy wrapper *)

(** The root of the parent chain. *)
Fixpoint chain_root (self : CascadingConfig) : CascadingConfig :=
  match parent self with
  | Some p => chain_root p
  | None => self
  end.

(** [self.system_level]: the first level built, the root of every chain
    the wrapper builds. *)
Definition system_level (self : LutrisConfig) : CascadingConfig :=
  chain_root (lc_config self).

(** What [getattr(self, "%s_level" % level)] finds.  Four attributes of a
    wrapper have a name that ends in [_level]: the three level objects and
    the method [get_level] itself. *)
Inductive level_attr :=
  | Level (c : CascadingConfig)
  | GetLevelMethod.

(** [self.get_level(level)]: [getattr(self, "%s_level" % level)] *)
Definition get_level (self : LutrisConfig) (lvl : string) : result level_attr :=
  if decide (lvl = "system") then Ok (Level (system_level self))
  else if decide (lvl = "runner") then
    match runner_level self with Ok c => Ok (Level c) | Raise e => Raise e end
  else if decide (lvl = "game") then
    match game_level self with Ok c => Ok (Level c) | Raise e => Raise e end
  else if decide (lvl = "get") then Ok GetLevelMethod
  else Raise AttributeError.

(** [self.get_defaults(options_type)]; a method has no attribute
    [defaults]. *)
Definition get_defaults (self : LutrisConfig) (options_type : string)
    : result (gmap string value) :=
  match get_level self options_type with
  | Ok (Level c) => Ok (defaults c)
  | Ok GetLevelMethod => Raise AttributeError
  | Raise e => Raise e
  end.

(** [self.options_as_dict(options_type)]; a method has no attribute
    [definition]. *)
Definition options_as_dict (self : LutrisConfig) (options_type : string)
    : result catalog :=
  match get_level self options_type with
  | Ok (Level c) => Ok (definition c)
  | Ok GetLevelMethod => Raise AttributeError
  | Raise e => Raise e
  end.

(** The property [system_config_path] *)
Definition system_config_path (self : LutrisConfig) : result string :=
  filename (system_level self).

(** The property [runner_config_path]; [None] when the runner slug is
    false. *)
Definition runner_config_path (self : LutrisConfig) : result (option string) :=
  if truthy (runner_slug self) then
    match runner_level self with
    | Ok c => match filename c with Ok f => Ok (Some f) | Raise e => Raise e end
    | Raise e => Raise e
    end
  else Ok None.

(** The property [game_config_path]; [None] when the identifier is false
    or the temporary marker. *)
Definition game_config_path (self : LutrisConfig) : result (option string) :=
  if negb (truthy (_game_config_id self))
     || bool_decide (_game_config_id self = Some TEMP_CONFIG)
  then Ok None
  else
    match game_level self with
    | Ok c => match filename c with Ok f => Ok (Some f) | Raise e => Raise e end
    | Raise e => Raise e
    end.

(** [self.remove()]: the files after the call. *)
Definition LutrisConfig_remove (fs : filesystem) (self : LutrisConfig) : result unit * filesystem :=
  match game_config_path self with
  | Raise e => (Raise e, fs)
  | Ok None => (Ok tt, fs)
  | Ok (Some path) =>
      if negb (bool_decide (path = "")) && path_exists fs path
      then (Ok tt, delete path fs)
      else (Ok tt, fs)
  end.

(** The property [raw_system_config] (and its aliases): [self.config.data] *)
Definition raw_config (self : LutrisConfig) : loc := data (lc_config self).

(** The setter of [raw_system_config]: [self.config.replace(value)] *)
Definition set_raw_config (self : LutrisConfig) (value : loc)
    : result unit * LutrisConfig :=
  let '(r, c) := replace (lc_config self) value in
  (r, mkLutrisConfig (_game_config_id self) (runner_slug self) (level self) c).

(** ** Notions used to state the properties *)

(** The dict that reads, writes and deletions of a configuration go to:
    [self.config] itself, or the [this] of the proxy. *)
Definition local_store (self : CascadingConfig) : loc :=
  match config self with
  | Plain d => d
  | Proxy this => this
  end.

(** The parent chain, nearest first. *)
Fixpoint ancestors (self : CascadingConfig) : list CascadingConfig :=
  match parent self with
  | Some p => p :: ancestors p
  | None => []
  end.

(** The last entry for [key] among a catalog's items that has the field
    [name]: what a loop of assignments over the items leaves. *)
Fixpoint last_entry {A : Type} (name : option_def -> option A) (items : catalog)
    (key : string) : option A :=
  match items with
  | [] => None
  | (k, d) :: rest =>
      match last_entry name rest key with
      | Some x => Some x
      | None => if decide (k = key) then name d else None
      end
  end.

(** The field [name] of [key] in the most specific catalog of the chain
    that has it. *)
Fixpoint most_specific {A : Type} (name : option_def -> option A)
    (self : CascadingConfig) (key : string) : option A :=
  match last_entry name (definition self) key with
  | Some x => Some x
  | None =>
      match parent self with
      | Some p => most_specific name p key
      | None => None
      end
  end.

(** An entry whose special getter [build_getter_cache] can name: it has an
    explicit ["getter"], or it asks for neither a cascade nor a transform. *)
Definition entry_resolves (d : option_def) : bool :=
  match opt_getter d with
  | Some _ => true
  | None =>
      match opt_cascade d, opt_transform d with
      | Some true, _ => false
      | _, Some _ => false
      | _, None => true
      end
  end.

(** Every entry of every catalog of the chain resolves. *)
Fixpoint chain_resolves (self : CascadingConfig) : bool :=
  forallb (fun kd => entry_resolves (snd kd)) (definition self)
  && match parent self with
     | Some p => chain_resolves p
     | None => true
     end.

(** The default that the root-most level of the chain caches for [key]. *)
Fixpoint rootmost_default (self : CascadingConfig) (key : string) : option value :=
  match parent self with
  | Some p =>
      match rootmost_default p key with
      | Some d => Some d
      | None => defaults self !! key
      end
  | None => defaults self !! key
  end.

(** No level of the chain has a special getter for [key]. *)
Fixpoint plain_key (self : CascadingConfig) (key : string) : Prop :=
  getter_cache self !! key = None
  /\ match parent self with
     | Some p => plain_key p key
     | None => True
     end.

(** No level of the chain stores [key]. *)
Fixpoint stored_nowhere (h : heap) (self : CascadingConfig) (key : string) : Prop :=
  dict_at h (local_store self) !! key = None
  /\ match parent self with
     | Some p => stored_nowhere h p key
     | None => True
     end.

(** Every level with a parent reads through a proxy, and the root through
    its dict: the shape [cascade] gives. *)
Fixpoint cascade_shaped (self : CascadingConfig) : Prop :=
  config self = cascade (local_store self) (parent self)
  /\ match parent self with
     | Some p => cascade_shaped p
     | None => True
     end.

(** The write reached the local dict and nothing else: [h'] is [h] with
    [key] bound to [x] in the local dict of [self]; every other dict, the
    local dicts of the ancestors among them, is as it was. *)
Definition written_locally (h h' : heap) (self : CascadingConfig) (key : string)
    (x : value) : Prop :=
  dict_at h' (local_store self) = <[key := x]> (dict_at h (local_store self))
  /\ (forall l, l <> local_store self -> dict_at h' l = dict_at h l)
  /\ Forall (fun a => local_store a <> local_store self ->
                      dict_at h' (local_store a) = dict_at h (local_store a))
            (ancestors self).

(** The catalogs a constructor call is given resolve: those of the new
    level and of the parent chain. *)
Definition catalogs_resolve (defn : catalog) (par : option CascadingConfig) : bool :=
  forallb (fun kd => entry_resolves (snd kd)) defn
  && match par with
     | Some p => chain_resolves p
     | None => true
     end.

(** The local dict and the heap a constructor call starts from. *)
Definition init_store (h : heap) (dat : option loc) : loc * heap :=
  match dat with
  | Some d => (d, h)
  | None => alloc_dict h ∅
  end.

(** ** Worked configurations *)

(** The value stored for [key] at the nearest level of the chain: the
    loop [c = config; while c is not None: if key in c.data: return
    c.data[key]; c = c.parent]. *)
Fixpoint nearest_stored (h : heap) (self : CascadingConfig) (key : string)
    : option value :=
  match dict_at h (data self) !! key with
  | Some v => Some v
  | None =>
      match parent self with
      | Some p => nearest_stored h p key
      | None => None
      end
  end.

(** Callbacks for the examples: getter 0 answers 42, getter 1 answers the
    double of the number stored for the key at the nearest level of the
    chain (and misses when no level stores it), every other getter misses;
    validator 0 rejects negative numbers and every other validator accepts;
    every transform doubles a number. *)
Definition ex_env : callbacks :=
  Callbacks
    (fun g h self key =>
       match g with
       | O => Ok (VInt 42)
       | S O =>
           match nearest_stored h self key with
           | Some (VInt n) => Ok (VInt (2 * n))
           | Some v => Ok v
           | None => Raise KeyError
           end
       | S (S _) => Raise KeyError
       end)
    (fun f _ _ _ x =>
       match f, x with
       | O, VInt n => Ok (bool_decide (0 <= n))
       | _, _ => Ok true
       end)
    (fun _ _ _ _ x => match x with VInt n => Ok (VInt (2 * n)) | _ => Ok x end).

(** A configuration directory with no file in it. *)
Definition no_files : filesystem := ∅.

(** The object a constructor call returned ([blank] stands for none). *)
Definition blank : CascadingConfig :=
  mkConfig KCascadingConfig 1%positive [] (Plain 1%positive) None ∅ ∅ ∅ ∅.

Definition built (r : result CascadingConfig * heap) : CascadingConfig :=
  match fst r with
  | Ok c => c
  | Raise _ => blank
  end.

(** The wrapper a constructor call returned. *)
Definition built_wrapper (r : result LutrisConfig * heap) : LutrisConfig :=
  match fst r with
  | Ok f => f
  | Raise _ => mkLutrisConfig None None "" blank
  end.

(** [{"validate": f}] *)
Definition checked (f : nat) : option_def := OptionDef None (Some f) None None None.

(** [{"cascade": True}], and the same with the class's own method named as
    the getter. *)
Definition cascading : option_def := OptionDef None None None (Some true) None.

Definition cascading_explicit : option_def :=
  OptionDef None None (Some CascadeGetter) (Some true) None.

(** [{"transform": t}], and the same with the class's own method named as
    the getter. *)
Definition transforming (t : nat) : option_def :=
  OptionDef None None None None (Some t).

Definition transformed (t : nat) : option_def :=
  OptionDef None None (Some TransformGetter) None (Some t).

(** [{"default": d}] *)
Definition defaulted (d : value) : option_def := OptionDef (Some d) None None None None.

(** A system level whose catalog validates [speed] with validator 0, and a
    runner level under it whose catalog validates [speed] with validator 1. *)
Definition ex_system_speed : result CascadingConfig * heap :=
  CascadingConfig_init KCascadingConfig ∅ [("speed", checked 0)] None None.

Definition ex_runner_speed : result CascadingConfig * heap :=
  CascadingConfig_init KCascadingConfig (snd ex_system_speed) [("speed", checked 1)]
    None (Some (built ex_system_speed)).

(** A system level whose catalog names [cascade_getter] for [env], and a
    game level under it. *)
Definition ex_system_env : result CascadingConfig * heap :=
  CascadingConfig_init KCascadingConfig ∅ [("env", cascading_explicit)] None None.

Definition ex_game_env : result CascadingConfig * heap :=
  CascadingConfig_init KCascadingConfig (snd ex_system_env) [] None
    (Some (built ex_system_env)).

(** A configuration over the dict [{"x": 21}] whose catalog transforms [x],
    and one over an empty dict. *)
Definition ex_transform_set : result CascadingConfig * heap :=
  CascadingConfig_init KCascadingConfig {[ 1%positive := {[ "x" := VInt 21 ]} ]}
    [("x", transformed 0)] (Some 1%positive) None.

Definition ex_transform_unset : result CascadingConfig * heap :=
  CascadingConfig_init KCascadingConfig ∅ [("x", transformed 0)] None None.

(** A level with an empty catalog under [ex_transform_set]: it inherits
    the getter of [x], not the transform. *)
Definition ex_transform_child : result CascadingConfig * heap :=
  CascadingConfig_init KCascadingConfig (snd ex_transform_set) [] None
    (Some (built ex_transform_set)).

(** A system configuration over [{"a": 1}], and a second dict [{"a": 2}]
    to replace it with. *)
Definition ex_replace : result CascadingConfig * heap :=
  CascadingConfig_init KCascadingConfig
    {[ 1%positive := {[ "a" := VInt 1 ]}; 2%positive := {[ "a" := VInt 2 ]} ]}
    [] (Some 1%positive) None.

(** A runner level that stores [res = "native"] and a game level under it
    that overrides it with ["1080p"]. *)
Definition ex_runner_res : result CascadingConfig * heap :=
  CascadingConfig_init KCascadingConfig
    {[ 1%positive := {[ "res" := VStr "native" ]};
       2%positive := {[ "res" := VStr "1080p" ]} ]}
    [] (Some 1%positive) None.

Definition ex_game_res : result CascadingConfig * heap :=
  CascadingConfig_init KCascadingConfig (snd ex_runner_res) [] (Some 2%positive)
    (Some (built ex_runner_res)).

(** A runner level that stores [vol = 21] and a game level under it that
    overrides it with 5 and whose catalog gives [vol] the getter 1. *)
Definition ex_runner_vol : result CascadingConfig * heap :=
  CascadingConfig_init KCascadingConfig
    {[ 1%positive := {[ "vol" := VInt 21 ]}; 2%positive := {[ "vol" := VInt 5 ]} ]}
    [] (Some 1%positive) None.

Definition ex_game_vol : result CascadingConfig * heap :=
  CascadingConfig_init KCascadingConfig (snd ex_runner_vol)
    [("vol", OptionDef None None (Some (CustomGetter 1)) None None)] (Some 2%positive)
    (Some (built ex_runner_vol)).

(** A system level whose catalog gives [x] the explicit getter 0. *)
Definition ex_system_getter : result CascadingConfig * heap :=
  CascadingConfig_init KCascadingConfig ∅
    [("x", OptionDef None None (Some (CustomGetter 0)) None None)] None None.

(** A wrapper for a game that is not created yet, of the runner [wine],
    with nothing on disk; and the heap after [exe] was set at its game
    level. *)
Definition ex_temp : result LutrisConfig * heap :=
  LutrisConfig_init "/cfg" [("resolution", defaulted (VStr "native"))]
    (fun _ => Ok ([("version", OptionDef None None None None None)],
                  [("exe", OptionDef None None None None None)]))
    no_files ∅ (Some "wine") (Some TEMP_CONFIG) None.

Definition ex_temp_heap : heap :=
  snd (setitem ex_env (snd ex_temp) (lc_config (built_wrapper ex_temp)) "exe"
         (VStr "hl2.exe")).

(** A system level whose catalog gives [resolution] the default
    ["native"]; a runner level under it with an empty catalog; and a
    runner level under it whose catalog gives [resolution] the default
    ["1080p"].  Nothing is stored at any level. *)
Definition ex_system_default : result CascadingConfig * heap :=
  CascadingConfig_init KCascadingConfig ∅
    [("resolution", defaulted (VStr "native"))] None None.

Definition ex_runner_default : result CascadingConfig * heap :=
  CascadingConfig_init KCascadingConfig (snd ex_system_default) [] None
    (Some (built ex_system_default)).

Definition ex_runner_redefault : result CascadingConfig * heap :=
  CascadingConfig_init KCascadingConfig (snd ex_system_default)
    [("resolution", defaulted (VStr "1080p"))] None
    (Some (built ex_system_default)).

(** A configuration whose catalog gives [x] the default 1 and the explicit
    getter 0. *)
Definition ex_getter_default : result CascadingConfig * heap :=
  CascadingConfig_init KCascadingConfig ∅
    [("x", OptionDef (Some (VInt 1)) None (Some (CustomGetter 0)) None None)] None None.

(** ** Notions for the further properties *)

(** The value that the nearest level of the chain stores for [key] in its
    local dict. *)
Fixpoint nearest_local (h : heap) (self : CascadingConfig) (key : string)
    : option value :=
  match dict_at h (local_store self) !! key with
  | Some v => Some v
  | None =>
      match parent self with
      | Some p => nearest_local h p key
      | None => None
      end
  end.

(** Two states of one configuration object: every level has the class,
    data, proxy, definition and definition caches it had (the cascade
    caches may differ). *)
Fixpoint same_binding (c c' : CascadingConfig) : Prop :=
  cls c' = cls c
  /\ data c' = data c
  /\ config c' = config c
  /\ definition c' = definition c
  /\ defaults c' = defaults c
  /\ validate_cache c' = validate_cache c
  /\ getter_cache c' = getter_cache c
  /\ match parent c, parent c' with
     | Some p, Some p' => same_binding p p'
     | None, None => True
     | _, _ => False
     end.

(** Every catalog of the chain has each key once, as an [OrderedDict] has. *)
Fixpoint catalogs_unique (self : CascadingConfig) : Prop :=
  NoDup (map fst (definition self))
  /\ match parent self with
     | Some p => catalogs_unique p
     | None => True
     end.

(** The levels of a wrapper, deepest first. *)
Definition levels (self : LutrisConfig) : list CascadingConfig :=
  lc_config self :: ancestors (lc_config self).

(** What a plain key reads as: the nearest stored value, else the default
    of the root-most level that caches one, else a miss. *)
Definition cascaded (h : heap) (self : CascadingConfig) (key : string) : result value :=
  match nearest_local h self key with
  | Some v => Ok v
  | None =>
      match rootmost_default self key with
      | Some d => Ok d
      | None => Raise KeyError
      end
  end.

(** The heap of [ex_system_speed] with one more dict, [{"speed": -5}]. *)
Definition ex_update_heap : heap :=
  <[ 7%positive := {[ "speed" := VInt (-5) ]} ]> (snd ex_system_speed).

(** The parent attribute before and after a call: the same object, in a
    state with the same bindings. *)
Definition same_parent (par par' : option CascadingConfig) : Prop :=
  match par, par' with
  | Some p, Some p' => same_binding p p'
  | None, None => True
  | _, _ => False
  end.

(** Every entry that a dict of [h] holds, it holds in [h'] with the same
    value. *)
Definition keeps_entries (h h' : heap) : Prop :=
  forall l k v, dict_at h l !! k = Some v -> dict_at h' l !! k = Some v.

(** What a constructor call without data returns: an object [c] of class
    [k] over a dict that is new in [h]. *)
Definition new_level (k : klass) (defn : catalog) (par : option CascadingConfig)
    (h : heap) (c : CascadingConfig) (h' : heap) : Prop :=
  cls c = k /\ definition c = defn /\ parent c = par
  /\ config c = cascade (data c) par
  /\ data c = fresh (dom h)
  /\ defaults c = build_definition_cache opt_default c
  /\ exists content, h' = <[fresh (dom h) := content]> h.

(** A configuration directory with a system file and the file of the game
    [quake], and the wrapper of that game with the runner [wine]. *)
Definition ex_files : filesystem :=
  {[ "/cfg/system.yml" := Ok (Some {[ "resolution" := VStr "800x600" ]});
     "/cfg/games/quake.yml" := Ok (Some {[ "exe" := VStr "quake.exe" ]}) ]}.

Definition ex_runner_options
    : string -> result (list (string * option_def) * list (string * option_def)) :=
  fun _ => Ok ([("version", OptionDef None None None None None)],
               [("exe", OptionDef None None None None None)]).

Definition ex_saved : result LutrisConfig * heap :=
  LutrisConfig_init "/cfg" [("resolution", defaulted (VStr "native"))]
    ex_runner_options ex_files ∅ (Some "wine") (Some "quake") None.

(** The ["default"] of the last option named [key] in a list of options:
    what [makedef] keeps for the key. *)
Definition option_default (options : list (string * option_def)) (key : string)
    : option value :=
  last_entry Some options key ≫= opt_default.

(** ** Basic facts *)

(** Induction along the parent chain. *)
Lemma chain_ind (P : CascadingConfig -> Prop) :
  (forall c, parent c = None -> P c) ->
  (forall c p, parent c = Some p -> P p -> P c) ->
  forall c, P c.
Proof.
  intros Hroot Hstep. fix IH 1.
  intros [k d df v [p|] dfl vc gc cc].
  - eapply Hstep; [reflexivity | apply IH].
  - apply Hroot. reflexivity.
Qed.

Lemma contains_unfold h self key :
  contains h self key =
  view_contains h (config self)
    (match parent self with
     | Some p => contains h p key
     | None => Raise TypeError
     end) key.
Proof. destruct self; reflexivity. Qed.

Lemma getitem_unfold env h self key :
  getitem env h self key =
  getitem_body env (parent_getitem env (parent self)) h self key.
Proof. destruct self as [k d df v [p|] dfl vc gc cc]; reflexivity. Qed.

Lemma cascade_getter_defaults h self key r h' self' :
  cascade_getter h self key = (r, h', self') -> defaults self' = defaults self.
Proof.
  unfold cascade_getter. intros H.
  destruct (cascade_cache self !! key); [by inversion H|].
  destruct (parent self);
    destruct (dict_getitem _ _ _); by inversion H.
Qed.

Lemma transform_getter_defaults env pg h self key r h' self' :
  transform_getter env pg h self key = (r, h', self') -> defaults self' = defaults self.
Proof.
  unfold transform_getter. intros H.
  destruct (contains h self key) as [[|]|]; try by inversion H.
  destruct (od_get _ _) as [d|]; [|by inversion H].
  destruct (opt_transform d); [|by inversion H].
  destruct (view_getitem _ _ _ _ _) as [[r0 h0] par].
  destruct r0; by inversion H.
Qed.

Lemma invoke_getter_defaults env g pg h self key r h' self' :
  invoke_getter env g pg h self key = (r, h', self') -> defaults self' = defaults self.
Proof.
  destruct g; simpl.
  - intros H; by inversion H.
  - apply cascade_getter_defaults.
  - apply transform_getter_defaults.
Qed.

(** ** Reading *)

(** What [self.config[key]] does: a dict answers from itself; a proxy
    answers from [this] when the key is there and asks the parent's
    [__getitem__] otherwise. *)
Lemma view_getitem_cases env h self key :
  view_getitem (config self) (parent self) (parent_getitem env (parent self)) h key =
  match config self with
  | Plain d => (dict_getitem h d key, h, parent self)
  | Proxy this =>
      match dict_at h this !! key with
      | Some v => (Ok v, h, parent self)
      | None =>
          match parent self with
          | Some p => let '(r, h', p') := getitem env h p key in (r, h', Some p')
          | None => (Raise TypeError, h, None)
          end
      end
  end.
Proof.
  unfold view_getitem, dict_contains, dict_getitem.
  destruct (config self) as [d|this]; [reflexivity|].
  destruct (dict_at h this !! key); [reflexivity|].
  destruct (parent self); reflexivity.
Qed.

(** C1.  Reading a key through [__getitem__].  The read has a raw result
    [r], and returns [r] unless [r] is a [KeyError]; a [KeyError] becomes
    [defaults[key]] when the key has a default and is raised again when it
    has none.  The raw result is, by the entry of the key in the getter
    cache:
    - a user's getter: what that function returns for the configuration and
      the key, nothing else being touched;
    - [cascade_getter]: the object cached for the key; without one, after
      [self.data.setdefault(key, {})], an [AttributeError] on a
      configuration with a parent ([get_cascade]), and on one without the
      value now stored under the key, which is cached;
    - [transform_getter]: for a key in the cascade the transform of this
      level's own catalog applied to the looked-up value, a [KeyError] when
      this catalog has no transform for the key; for a key not in the
      cascade the default, or [None];
    - no entry: the lookup of the key in [self.config], which answers from
      the local dict and else from the parent's [__getitem__]. *)
Theorem getitem_resolution (env : callbacks) (h : heap) (self : CascadingConfig)
    (key : string) :
  exists r h' self',
    let lookup : read (option CascadingConfig) :=
      match config self with
      | Plain d => (dict_getitem h d key, h, parent self)
      | Proxy this =>
          match dict_at h this !! key with
          | Some v => (Ok v, h, parent self)
          | None =>
              match parent self with
              | Some p => let '(r, h', p') := getitem env h p key in (r, h', Some p')
              | None => (Raise TypeError, h, None)
              end
          end
      end in
    getitem env h self key =
      (match r with
       | Raise KeyError =>
           match defaults self !! key with
           | Some d => Ok d
           | None => Raise KeyError
           end
       | _ => r
       end, h', self')
    /\ (r, h', self') =
       match getter_cache self !! key with
       | Some (CustomGetter f) => (call_getter env f h self key, h, self)
       | Some CascadeGetter =>
           match cascade_cache self !! key with
           | Some cas => (Ok cas, h, self)
           | None =>
               let h1 := dict_setdefault_new h (data self) key in
               match parent self, dict_at h1 (data self) !! key with
               | _, None => (Raise KeyError, h1, self)
               | Some _, Some _ => (Raise AttributeError, h1, self)
               | None, Some cas =>
                   (Ok cas, h1,
                    set_cascade_cache self (<[key := cas]> (cascade_cache self)))
               end
           end
       | Some TransformGetter =>
           match contains h self key with
           | Raise e => (Raise e, h, self)
           | Ok false => (Ok (default VNone (defaults self !! key)), h, self)
           | Ok true =>
               match od_get (definition self) key ≫= opt_transform with
               | None => (Raise KeyError, h, self)
               | Some t =>
                   let '(raw, h1, par) := lookup in
                   (match raw with
                    | Ok v => call_transform env t h1 (set_parent self par) key v
                    | Raise e => Raise e
                    end, h1, set_parent self par)
               end
           end
       | None => let '(r, h1, par) := lookup in (r, h1, set_parent self par)
       end
    /\ is_Some (dict_at (dict_setdefault_new h (data self) key) (data self) !! key).
Proof.
  assert (Hpresent :
            is_Some (dict_at (dict_setdefault_new h (data self) key) (data self) !! key)).
  { unfold dict_setdefault_new.
    destruct (dict_at h (data self) !! key) as [v|] eqn:Hk; [rewrite Hk; by eexists|].
    unfold alloc_dict, dict_setitem. unfold dict_at at 1.
    rewrite lookup_insert_eq. simpl. rewrite lookup_insert_eq. by eexists. }
  rewrite getitem_unfold. unfold getitem_body, invoke_getter, cascade_getter,
    transform_getter, dict_getitem.
  pose proof (view_getitem_cases env h self key) as Hcases.
  unfold dict_getitem in Hcases.
  destruct (view_getitem (config self) (parent self) (parent_getitem env (parent self))
              h key) as [[raw h1] par].
  destruct (getter_cache self !! key) as [[f| |]|].
  - eexists _, _, _. cbn zeta.
    split; [|split; [reflexivity | exact Hpresent]]. reflexivity.
  - destruct (cascade_cache self !! key) as [cas|].
    { eexists _, _, _. cbn zeta.
      split; [|split; [reflexivity | exact Hpresent]]. reflexivity. }
    cbn zeta.
    destruct (parent self) as [p|],
      (dict_at (dict_setdefault_new h (data self) key) (data self) !! key) as [cas|];
      eexists _, _, _; (split; [|split; [reflexivity | exact Hpresent]]); reflexivity.
  - destruct (contains h self key) as [[|]|e].
    + destruct (od_get (definition self) key) as [defn|]; cbn [mbind option_bind];
        [destruct (opt_transform defn) as [t|]|].
      * eexists _, _, _. cbn zeta. rewrite <- Hcases.
        split; [|split; [reflexivity | exact Hpresent]]. by destruct raw.
      * eexists _, _, _. cbn zeta.
        split; [|split; [reflexivity | exact Hpresent]]. reflexivity.
      * eexists _, _, _. cbn zeta.
        split; [|split; [reflexivity | exact Hpresent]]. reflexivity.
    + eexists _, _, _. cbn zeta.
      split; [|split; [reflexivity | exact Hpresent]]. reflexivity.
    + eexists _, _, _. cbn zeta.
      split; [|split; [reflexivity | exact Hpresent]]. reflexivity.
  - eexists _, _, _. cbn zeta. rewrite <- Hcases.
    split; [|split; [reflexivity | exact Hpresent]]. reflexivity.
Qed.

(** ** The caches *)

Lemma definition_cache_fold {A : Type} (name : option_def -> option A)
    (items : catalog) (cache : gmap string A) (key : string) :
  fold_left
    (fun cache kd =>
       match name (snd kd) with
       | Some x => <[fst kd := x]> cache
       | None => cache
       end) items cache !! key =
  match last_entry name items key with
  | Some x => Some x
  | None => cache !! key
  end.
Proof.
  revert cache. induction items as [|[k d] rest IH]; intros cache; simpl; [reflexivity|].
  rewrite IH. destruct (last_entry name rest key); [reflexivity|].
  destruct (name d) as [x|] eqn:E.
  - destruct (decide (k = key)) as [->|Hne].
    + by rewrite lookup_insert_eq.
    + by rewrite lookup_insert_ne.
  - by destruct (decide (k = key)).
Qed.

(** In a catalog, where every key occurs once, the last entry for a key
    is its entry. *)
Lemma last_entry_absent {A : Type} (name : option_def -> option A)
    (items : catalog) (key : string) :
  key ∉ map fst items -> last_entry name items key = None.
Proof.
  induction items as [|[k d] rest IH]; simpl; [reflexivity|].
  intros Hnot. apply not_elem_of_cons in Hnot as [Hne Hrest].
  rewrite (IH Hrest). destruct (decide (k = key)); [congruence | reflexivity].
Qed.

Lemma last_entry_od_get {A : Type} (name : option_def -> option A)
    (items : catalog) (key : string) :
  NoDup (map fst items) ->
  last_entry name items key = od_get items key ≫= name.
Proof.
  induction items as [|[k d] rest IH]; simpl; [reflexivity|].
  intros Hnd. apply NoDup_cons in Hnd as [Hk Hrest].
  destruct (decide (k = key)) as [->|Hne].
  - by rewrite (last_entry_absent name rest key Hk).
  - rewrite (IH Hrest). by destruct (od_get rest key ≫= name).
Qed.

Lemma od_set_keys (od : catalog) (key : string) (d : option_def) :
  map fst (od_set od key d) =
  if decide (key ∈ map fst od) then map fst od else map fst od ++ [key].
Proof.
  induction od as [|[k d0] rest IH]; simpl.
  - destruct (decide (key ∈ [])) as [Hin|_]; [by apply elem_of_nil in Hin | reflexivity].
  - destruct (decide (k = key)) as [->|Hne]; simpl.
    + destruct (decide (key ∈ key :: map fst rest)) as [_|Hnot]; [reflexivity|].
      exfalso. apply Hnot. left.
    + rewrite IH.
      destruct (decide (key ∈ map fst rest)) as [Hin|Hnot];
        destruct (decide (key ∈ k :: map fst rest)) as [Hin'|Hnot']; try reflexivity.
      * exfalso. apply Hnot'. by right.
      * exfalso. apply elem_of_cons in Hin' as [->|Hin']; [by apply Hne | by apply Hnot].
Qed.

(** [makedef] makes a catalog: every key occurs once. *)
Lemma makedef_NoDup (options : list (string * option_def)) :
  NoDup (map fst (makedef options)).
Proof.
  unfold makedef.
  assert (H : forall od : catalog, NoDup (map fst od) ->
              NoDup (map fst (fold_left (fun od opt => od_set od (fst opt) (snd opt))
                                options od))).
  { induction options as [|[k d] rest IH]; intros od Hod; simpl; [exact Hod|].
    apply IH. rewrite od_set_keys.
    destruct (decide (k ∈ map fst od)) as [_|Hnot]; [exact Hod|].
    apply NoDup_app. split; [exact Hod|]. split.
    - intros x Hx Hin. apply list_elem_of_singleton in Hin. by subst.
    - apply NoDup_singleton. }
  apply H. constructor.
Qed.

(** The cache of a field holds, for every key, the entry of the most
    specific catalog of the chain that has the field. *)
Lemma build_definition_cache_lookup {A : Type} (name : option_def -> option A)
    (self : CascadingConfig) (key : string) :
  build_definition_cache name self !! key = most_specific name self key.
Proof.
  induction self as [c Hroot | c p Hp IH] using chain_ind.
  - destruct c as [k d df v par dfl vc gc cc]; simpl in *; subst par.
    rewrite definition_cache_fold. by destruct (last_entry name df key).
  - destruct c as [k d df v par dfl vc gc cc]; simpl in *; subst par.
    rewrite definition_cache_fold, IH. reflexivity.
Qed.

Lemma getter_cache_fold_raise (items : catalog) (e : exn) :
  fold_left getter_cache_step items (Raise e) = Raise e.
Proof. induction items as [|kd rest IH]; simpl; [reflexivity | apply IH]. Qed.

Lemma getter_cache_fold (items : catalog) (cache : gmap string getter) :
  fold_left getter_cache_step items (Ok cache) =
  if forallb (fun kd => entry_resolves (snd kd)) items
  then Ok (fold_left
             (fun cache kd =>
                match opt_getter (snd kd) with
                | Some g => <[fst kd := g]> cache
                | None => cache
                end) items cache)
  else Raise NameError.
Proof.
  revert cache. induction items as [|[k d] rest IH]; intros cache; simpl; [reflexivity|].
  unfold entry_resolves.
  destruct (opt_getter d) as [g|]; simpl; [apply IH|].
  destruct (opt_cascade d) as [[|]|]; simpl;
    try apply getter_cache_fold_raise;
    (destruct (opt_transform d); simpl; [apply getter_cache_fold_raise | apply IH]).
Qed.

(** [build_getter_cache] succeeds exactly when every entry of the chain
    resolves, and then caches the explicit getters; otherwise it raises
    [NameError]. *)
Lemma build_getter_cache_spec (self : CascadingConfig) :
  build_getter_cache self =
  if chain_resolves self then Ok (build_definition_cache opt_getter self)
  else Raise NameError.
Proof.
  induction self as [c Hroot | c p Hp IH] using chain_ind.
  - destruct c as [k d df v par dfl vc gc cc]; simpl in *; subst par.
    rewrite getter_cache_fold, andb_true_r. reflexivity.
  - destruct c as [k d df v par dfl vc gc cc]; simpl in *; subst par.
    rewrite IH. destruct (chain_resolves p).
    + rewrite getter_cache_fold, andb_true_r. reflexivity.
    + rewrite getter_cache_fold_raise, andb_false_r. reflexivity.
Qed.

(** What the constructor leaves in a configuration. *)
Lemma CascadingConfig_init_ok k h defn dat par self h' :
  CascadingConfig_init k h defn dat par = (Ok self, h') ->
  cls self = k
  /\ definition self = defn
  /\ parent self = par
  /\ config self = cascade (data self) par
  /\ defaults self = build_definition_cache opt_default self
  /\ validate_cache self = build_definition_cache opt_validate self
  /\ build_getter_cache self = Ok (getter_cache self)
  /\ cascade_cache self = ∅
  /\ match dat with
     | Some d => data self = d /\ h' = h
     | None => data self = fresh (dom h) /\ h' = <[fresh (dom h) := ∅]> h
     end.
Proof.
  unfold CascadingConfig_init, alloc_dict. intros H.
  destruct dat as [d|]; cbv zeta beta iota in H;
    match type of H with
    | context [build_getter_cache ?c] =>
        destruct (build_getter_cache c) as [g|e] eqn:E; [|discriminate H]
    end;
    inversion H; subst; clear H; simpl;
    (repeat split; try reflexivity;
     try (destruct par; reflexivity);
     try (rewrite <- E; destruct par; reflexivity)).
Qed.

(** ** Writing *)

Lemma view_setitem_local h self key x :
  view_setitem h (config self) key x = dict_setitem h (local_store self) key x.
Proof. unfold view_setitem, local_store. by destruct (config self). Qed.

Lemma dict_setitem_at h l key x :
  dict_at (dict_setitem h l key x) l = <[key := x]> (dict_at h l).
Proof. unfold dict_setitem, dict_at at 1. by rewrite lookup_insert_eq. Qed.

Lemma dict_setitem_other h l key x l' :
  l' <> l -> dict_at (dict_setitem h l key x) l' = dict_at h l'.
Proof. intros Hne. unfold dict_setitem, dict_at. by rewrite lookup_insert_ne. Qed.

Lemma view_setitem_written h self key x :
  written_locally h (view_setitem h (config self) key x) self key x.
Proof.
  rewrite view_setitem_local. split; [apply dict_setitem_at|].
  split; [intros l Hl; by apply dict_setitem_other|].
  apply Forall_forall. intros a _ Hne. by apply dict_setitem_other.
Qed.

(** C2, as the code has it.  The validator consulted by a write is the one
    the validator cache holds for the key: that of the most specific
    catalog of the chain that registers one (it shadows the validators
    registered for the key higher up).  When that validator returns false
    the write raises [ValueError] and the heap is unchanged; when it
    accepts, or the chain registers none, the value is bound in the local
    dict of this level and every other dict, so every ancestor's, is
    untouched. *)
Theorem setitem_validated (env : callbacks) (h : heap) (self : CascadingConfig)
    (key : string) (x : value) :
  validate_cache self = build_definition_cache opt_validate self ->
  match most_specific opt_validate self key with
  | Some f =>
      match call_validate env f h self key x with
      | Ok false => setitem env h self key x = (Raise ValueError, h)
      | Ok true =>
          exists h', setitem env h self key x = (Ok tt, h')
                     /\ written_locally h h' self key x
      | Raise e => setitem env h self key x = (Raise e, h)
      end
  | None =>
      exists h', setitem env h self key x = (Ok tt, h')
                 /\ written_locally h h' self key x
  end.
Proof.
  intros Hcache. unfold setitem.
  rewrite Hcache, build_definition_cache_lookup.
  destruct (most_specific opt_validate self key) as [f|].
  - destruct (call_validate env f h self key x) as [[|]|e]; try reflexivity.
    eexists. split; [reflexivity | apply view_setitem_written].
  - eexists. split; [reflexivity | apply view_setitem_written].
Qed.

(** At the system level of the example the validator of [speed] rejects -5:
    the write raises and the heap stays. *)
Lemma setitem_validated_witness :
  setitem ex_env (snd ex_system_speed) (built ex_system_speed) "speed" (VInt (-5))
  = (Raise ValueError, snd ex_system_speed).
Proof.
  pose proof (setitem_validated ex_env (snd ex_system_speed) (built ex_system_speed)
                "speed" (VInt (-5))) as H.
  vm_compute in H. vm_compute. apply H. reflexivity.
Defined.

(** C2, as stated, fails: the system catalog registers validator 0 for
    [speed], and validator 0 returns false on -5; the runner catalog
    registers validator 1 for the same key.  A write of -5 at the runner
    level succeeds and stores the value. *)
Lemma setitem_shadowed_validator :
  fst ex_system_speed = Ok (built ex_system_speed)
  /\ fst ex_runner_speed = Ok (built ex_runner_speed)
  /\ parent (built ex_runner_speed) = Some (built ex_system_speed)
  /\ last_entry opt_validate (definition (built ex_system_speed)) "speed" = Some 0%nat
  /\ call_validate ex_env 0 (snd ex_runner_speed) (built ex_runner_speed)
       "speed" (VInt (-5)) = Ok false
  /\ fst (setitem ex_env (snd ex_runner_speed) (built ex_runner_speed)
            "speed" (VInt (-5))) = Ok tt
  /\ dict_at (snd (setitem ex_env (snd ex_runner_speed) (built ex_runner_speed)
                     "speed" (VInt (-5))))
             (data (built ex_runner_speed)) !! "speed" = Some (VInt (-5)).
Proof. vm_compute. repeat split. Qed.

(** ** Cascading sub-dictionaries *)

Lemma unresolved_entry (defn : catalog) (key : string) (d : option_def) :
  In (key, d) defn -> entry_resolves d = false ->
  forallb (fun kd => entry_resolves (snd kd)) defn = false.
Proof.
  intros Hin Hd. destruct (forallb _ defn) eqn:E; [|reflexivity].
  rewrite forallb_forall in E. specialize (E _ Hin). simpl in E. congruence.
Qed.

Lemma CascadingConfig_init_unresolved k h defn dat par key d :
  In (key, d) defn -> entry_resolves d = false ->
  fst (CascadingConfig_init k h defn dat par) = Raise NameError.
Proof.
  intros Hin Hd. unfold CascadingConfig_init.
  destruct (match dat with Some d0 => (d0, h) | None => alloc_dict h ∅ end) as [l h1].
  rewrite build_getter_cache_spec.
  destruct par as [p|]; simpl; rewrite (unresolved_entry _ _ _ Hin Hd); reflexivity.
Qed.

Lemma dict_setdefault_new_present h l key :
  exists v, dict_getitem (dict_setdefault_new h l key) l key = Ok v.
Proof.
  unfold dict_setdefault_new, dict_getitem.
  destruct (dict_at h l !! key) as [v|] eqn:E.
  - exists v. by rewrite E.
  - unfold alloc_dict. rewrite dict_setitem_at, lookup_insert_eq. eauto.
Qed.

(** C3, on the code.  A catalog entry that marks its key as cascading
    without naming a getter makes the constructor raise [NameError]: no
    configuration with such a key exists.  Where the getter cache does hold
    [cascade_getter] for a key (the catalog named the method explicitly), a
    first read on a configuration with a parent raises [AttributeError],
    since no class has [get_cascade]; no proxy over the parent's
    sub-dictionary is ever returned. *)
Theorem cascading_key_unreadable (env : callbacks) :
  (forall k h defn dat par key d,
      In (key, d) defn -> opt_getter d = None -> opt_cascade d = Some true ->
      fst (CascadingConfig_init k h defn dat par) = Raise NameError)
  /\ (forall h self p key,
         parent self = Some p ->
         getter_cache self !! key = Some CascadeGetter ->
         cascade_cache self !! key = None ->
         fst (fst (getitem env h self key)) = Raise AttributeError).
Proof.
  split.
  - intros k h defn dat par key d Hin Hg Hc.
    eapply CascadingConfig_init_unresolved; [exact Hin|].
    unfold entry_resolves. by rewrite Hg, Hc.
  - intros h self p key Hp Hg Hc.
    rewrite getitem_unfold. unfold getitem_body. rewrite Hg. simpl.
    unfold cascade_getter. rewrite Hc, Hp.
    destruct (dict_setdefault_new_present h (data self) key) as [v ->].
    reflexivity.
Qed.

(** A system level with the catalog [{"env": {"cascade": True}}] cannot be
    built; with the method named explicitly it can, and a game level under
    it cannot read [env]. *)
Lemma cascading_key_unreadable_witness :
  fst (CascadingConfig_init KCascadingConfig ∅ [("env", cascading)] None None)
  = Raise NameError
  /\ fst ex_game_env = Ok (built ex_game_env)
  /\ fst (fst (getitem ex_env (snd ex_game_env) (built ex_game_env) "env"))
     = Raise AttributeError.
Proof.
  destruct (cascading_key_unreadable ex_env) as [Hinit Hread].
  split; [|split].
  - apply (Hinit KCascadingConfig ∅ [("env", cascading)] None None "env" cascading);
      [left; reflexivity | reflexivity | reflexivity].
  - vm_compute. reflexivity.
  - apply (Hread (snd ex_game_env) (built ex_game_env) (built ex_system_env) "env");
      vm_compute; reflexivity.
Defined.

(** Without a parent [cascade_getter] works: a first call makes the nested
    dict when the key is absent, caches it and returns it; a second call
    returns the same object and changes nothing. *)
Lemma cascade_getter_root_cached (h : heap) (self : CascadingConfig) (key : string) :
  parent self = None ->
  cascade_cache self !! key = None ->
  dict_at h (data self) !! key = None ->
  exists h' self',
    cascade_getter h self key = (Ok (VDict (fresh (dom h))), h', self')
    /\ h !! fresh (dom h) = None
    /\ dict_at h' (data self) !! key = Some (VDict (fresh (dom h)))
    /\ cascade_getter h' self' key = (Ok (VDict (fresh (dom h))), h', self').
Proof.
  intros Hp Hc Hd. unfold cascade_getter at 1. rewrite Hc, Hp.
  unfold dict_setdefault_new, alloc_dict. rewrite Hd.
  unfold dict_getitem. rewrite dict_setitem_at, lookup_insert_eq.
  eexists _, _. split; [reflexivity|].
  split; [apply not_elem_of_dom, is_fresh|].
  split; [by rewrite dict_setitem_at, lookup_insert_eq|].
  unfold cascade_getter. simpl. by rewrite lookup_insert_eq.
Qed.

(** ** Transformed keys *)

(** C4, on the code.  A definition that supplies a transform and no getter
    cannot be read at all: the constructor raises [NameError] for every
    catalog with such an entry ([build_getter_cache] names the undefined
    [transform_getter]).  The transform getter is in the getter cache of a
    constructed configuration only where a catalog of the chain names it as
    the ["getter"] of the key.  Where it is in the cache:
    - a key in the cascade for which this level's own catalog has no
      transform (the getter is inherited from an ancestor's catalog) reads
      as a miss: the default, or [KeyError]; the stored value is not
      transformed and not returned;
    - a key absent from the whole cascade reads as the default, or as [None]
      when it has no default, never as [KeyError];
    - a key in the cascade for which this level's own catalog has the
      transform reads as the transform applied to the value looked up in
      [self.config], anew at every read. *)
Theorem transform_read (env : callbacks) :
  (forall k h defn dat par key d t,
      In (key, d) defn -> opt_getter d = None -> opt_transform d = Some t ->
      fst (CascadingConfig_init k h defn dat par) = Raise NameError)
  /\ (forall self key,
        build_getter_cache self = Ok (getter_cache self) ->
        getter_cache self !! key = Some TransformGetter ->
        most_specific opt_getter self key = Some TransformGetter)
  /\ (forall h self key,
        getter_cache self !! key = Some TransformGetter ->
        contains h self key = Ok true ->
        od_get (definition self) key ≫= opt_transform = None ->
        getitem env h self key =
          (match defaults self !! key with
           | Some dflt => Ok dflt
           | None => Raise KeyError
           end, h, self))
  /\ (forall h self key,
        getter_cache self !! key = Some TransformGetter ->
        contains h self key = Ok false ->
        getitem env h self key = (Ok (default VNone (defaults self !! key)), h, self))
  /\ (forall h self key t,
        getter_cache self !! key = Some TransformGetter ->
        contains h self key = Ok true ->
        od_get (definition self) key ≫= opt_transform = Some t ->
        exists raw h' par,
          let lookup : read (option CascadingConfig) :=
            match config self with
            | Plain d => (dict_getitem h d key, h, parent self)
            | Proxy this =>
                match dict_at h this !! key with
                | Some v => (Ok v, h, parent self)
                | None =>
                    match parent self with
                    | Some p =>
                        let '(r, h', p') := getitem env h p key in (r, h', Some p')
                    | None => (Raise TypeError, h, None)
                    end
                end
            end in
          (raw, h', par) = lookup
          /\ getitem env h self key =
               (match raw with
                | Ok v =>
                    match call_transform env t h' (set_parent self par) key v with
                    | Raise KeyError =>
                        match defaults self !! key with
                        | Some dflt => Ok dflt
                        | None => Raise KeyError
                        end
                    | r => r
                    end
                | Raise KeyError =>
                    match defaults self !! key with
                    | Some dflt => Ok dflt
                    | None => Raise KeyError
                    end
                | Raise e => Raise e
                end, h', set_parent self par)).
Proof.
  split; [|split; [|split; [|split]]].
  - intros k h defn dat par key d t Hin Hg Ht.
    apply (CascadingConfig_init_unresolved k h defn dat par key d Hin).
    unfold entry_resolves. rewrite Hg, Ht. by destruct (opt_cascade d) as [[|]|].
  - intros self key Hbuilt Hg. rewrite build_getter_cache_spec in Hbuilt.
    destruct (chain_resolves self); [|discriminate Hbuilt].
    injection Hbuilt as Hbuilt.
    by rewrite <- build_definition_cache_lookup, Hbuilt.
  - intros h self key Hg Hc Hd. rewrite getitem_unfold. unfold getitem_body.
    rewrite Hg. unfold invoke_getter, transform_getter. rewrite Hc.
    destruct (od_get (definition self) key) as [defn|]; cbn [mbind option_bind] in Hd;
      [rewrite Hd|]; reflexivity.
  - intros h self key Hg Hc. rewrite getitem_unfold. unfold getitem_body.
    rewrite Hg. unfold invoke_getter, transform_getter. rewrite Hc. reflexivity.
  - intros h self key t Hg Hc Hd. rewrite getitem_unfold. unfold getitem_body.
    rewrite Hg. unfold invoke_getter, transform_getter. rewrite Hc.
    destruct (od_get (definition self) key) as [defn|]; cbn [mbind option_bind] in Hd;
      [rewrite Hd | discriminate Hd].
    pose proof (view_getitem_cases env h self key) as Hcases.
    destruct (view_getitem (config self) (parent self) (parent_getitem env (parent self))
                h key) as [[raw h1] par].
    exists raw, h1, par. cbn zeta. split; [exact Hcases|].
    destruct raw as [v|e]; [|by destruct e].
    unfold default_fallback. cbn [defaults set_parent].
    destruct (call_transform env t h1 _ key v) as [x|e]; [reflexivity | by destruct e].
Qed.

(** A catalog with a transform and no getter builds nothing.  Where the
    system catalog names the transform getter for [x] and stores 21, the
    system level reads 42; the level under it, whose catalog does not
    define [x], does not read [x] at all. *)
Lemma transform_read_witness :
  fst (CascadingConfig_init KCascadingConfig ∅ [("x", transforming 0)] None None)
  = Raise NameError
  /\ fst ex_transform_child = Ok (built ex_transform_child)
  /\ fst (fst (getitem ex_env (snd ex_transform_child) (built ex_transform_set) "x"))
     = Ok (VInt 42)
  /\ contains (snd ex_transform_child) (built ex_transform_child) "x" = Ok true
  /\ fst (fst (getitem ex_env (snd ex_transform_child) (built ex_transform_child) "x"))
     = Raise KeyError
  /\ fst (fst (getitem ex_env (snd ex_transform_unset) (built ex_transform_unset) "x"))
     = Ok VNone.
Proof.
  destruct (transform_read ex_env) as (Hinit & _ & Hinherited & Habsent & _).
  split.
  { apply (Hinit KCascadingConfig ∅ [("x", transforming 0)] None None "x"
             (transforming 0) 0%nat); [by left | reflexivity | reflexivity]. }
  split; [vm_compute; reflexivity|]. split; [vm_compute; reflexivity|].
  split; [vm_compute; reflexivity|]. split.
  - rewrite (Hinherited (snd ex_transform_child) (built ex_transform_child) "x"
               ltac:(vm_compute; reflexivity) ltac:(vm_compute; reflexivity)
               ltac:(vm_compute; reflexivity)).
    vm_compute. reflexivity.
  - rewrite (Habsent (snd ex_transform_unset) (built ex_transform_unset) "x"
               ltac:(vm_compute; reflexivity) ltac:(vm_compute; reflexivity)).
    vm_compute. reflexivity.
Defined.

(** ** Replacing the local dict *)

Lemma set_parent_same (self : CascadingConfig) : set_parent self (parent self) = self.
Proof. by destruct self. Qed.

(** On a configuration with a parent, [replace] repoints the proxy: the
    new dict is both [self.data] and what reads and writes go to. *)
Lemma replace_child_repoints (self p : CascadingConfig) (this other : loc) :
  parent self = Some p -> config self = Proxy this ->
  exists self', replace self other = (Ok tt, self')
                /\ data self' = other
                /\ local_store self' = other
                /\ config self' = cascade other (parent self')
                /\ parent self' = parent self.
Proof.
  intros Hp Hc. unfold replace. simpl. rewrite Hp, Hc.
  eexists. split; [reflexivity|]. unfold local_store. simpl. by rewrite Hp.
Qed.

(** C5, on the code.  On a configuration without a parent [replace] sets
    [self.data] and leaves [self.config], which is the old dict object
    itself, as it was.  Reads of a key without special getter, membership
    and writes after the call still go to the old dict [d]; the contents of
    the new dict [other] are not consulted. *)
Theorem replace_root_keeps_old_dict (env : callbacks) (h : heap)
    (self : CascadingConfig) (d other : loc) (key : string) :
  parent self = None ->
  config self = Plain d ->
  getter_cache self !! key = None ->
  exists self',
    replace self other = (Ok tt, self')
    /\ data self' = other
    /\ config self' = Plain d
    /\ contains h self' key = Ok (dict_contains h d key)
    /\ getitem env h self' key = (default_fallback self key (dict_getitem h d key), h, self')
    /\ (forall x, validate_cache self !! key = None ->
                  setitem env h self' key x = (Ok tt, dict_setitem h d key x)).
Proof.
  intros Hp Hc Hg. unfold replace. simpl. rewrite Hp.
  eexists. split; [reflexivity|].
  split; [reflexivity|]. split; [exact Hc|].
  split; [|split].
  - rewrite contains_unfold. simpl. rewrite Hc. reflexivity.
  - rewrite getitem_unfold. unfold getitem_body. simpl. rewrite Hg, Hc, Hp. simpl.
    rewrite <- Hp at 2. unfold set_data, set_parent. simpl. by rewrite Hp.
  - intros x Hv. unfold setitem. simpl. rewrite Hv, Hc. reflexivity.
Qed.

(** After [replace] with the second dict, [a] still reads as 1. *)
Lemma replace_root_keeps_old_dict_witness :
  fst (replace (built ex_replace) 2%positive) = Ok tt
  /\ dict_getitem (snd ex_replace) (data (snd (replace (built ex_replace) 2%positive))) "a"
     = Ok (VInt 2)
  /\ fst (fst (getitem ex_env (snd ex_replace)
                 (snd (replace (built ex_replace) 2%positive)) "a"))
     = Ok (VInt 1).
Proof.
  destruct (replace_root_keeps_old_dict ex_env (snd ex_replace) (built ex_replace)
              1%positive 2%positive "a"
              ltac:(vm_compute; reflexivity) ltac:(vm_compute; reflexivity)
              ltac:(vm_compute; reflexivity))
    as (self' & Hrep & Hdata & _ & _ & Hread & _).
  rewrite Hrep. cbn [fst snd]. rewrite Hdata, Hread. cbn [fst snd].
  split; [reflexivity|]. split; vm_compute; reflexivity.
Defined.

(** ** Deleting *)

Lemma view_delitem_local h self key :
  view_delitem h (config self) key = dict_delitem h (local_store self) key.
Proof. unfold view_delitem, local_store. by destruct (config self). Qed.

(** C6, as the code has it.  Deleting a key, on a proxy or a
    configuration, touches the local dict only.  If the key is not in the
    local dict the deletion raises [KeyError] and nothing changes, whatever
    the parent holds.  If it is, the key is removed from the local dict and
    every other dict is as it was; and then, on a configuration that reads
    through a proxy over its parent, a key read through the cascade (no
    special getter) reads as the parent reads it: the value of the parent
    becomes visible again. *)
Theorem delitem_local_only (env : callbacks) (h : heap) (self : CascadingConfig)
    (key : string) :
  (dict_at h (local_store self) !! key = None ->
   delitem h self key = (Raise KeyError, h))
  /\ (forall v, dict_at h (local_store self) !! key = Some v ->
        exists h',
          delitem h self key = (Ok tt, h')
          /\ dict_at h' (local_store self) = delete key (dict_at h (local_store self))
          /\ (forall l, l <> local_store self -> dict_at h' l = dict_at h l)
          /\ (forall p, parent self = Some p ->
                        config self = Proxy (local_store self) ->
                        getter_cache self !! key = None ->
                        forall x h'' p',
                          getitem env h' p key = (Ok x, h'', p') ->
                          getitem env h' self key = (Ok x, h'', set_parent self (Some p')))).
Proof.
  unfold delitem. rewrite view_delitem_local. unfold dict_delitem. split.
  - intros ->. reflexivity.
  - intros v ->. eexists. split; [reflexivity|].
    assert (Hat : dict_at (<[local_store self := delete key (dict_at h (local_store self))]> h)
                    (local_store self) = delete key (dict_at h (local_store self))).
    { unfold dict_at at 1. by rewrite lookup_insert_eq. }
    split; [exact Hat|]. split.
    + intros l Hl. unfold dict_at. by rewrite lookup_insert_ne.
    + intros p Hp Hc Hg x h'' p' Hread.
      rewrite getitem_unfold. unfold getitem_body. rewrite Hg, Hc, Hp. simpl.
      unfold dict_contains. rewrite Hat, lookup_delete_eq, Hread. reflexivity.
Qed.

(** The game level reads its override; after deleting it, it reads the
    runner's value; deleting once more raises although the key is still
    in the cascade. *)
Lemma delitem_local_only_witness :
  fst (fst (getitem ex_env (snd ex_game_res) (built ex_game_res) "res")) = Ok (VStr "1080p")
  /\ exists h',
       delitem (snd ex_game_res) (built ex_game_res) "res" = (Ok tt, h')
       /\ fst (fst (getitem ex_env h' (built ex_game_res) "res")) = Ok (VStr "native")
       /\ contains h' (built ex_game_res) "res" = Ok true
       /\ delitem h' (built ex_game_res) "res" = (Raise KeyError, h').
Proof.
  split; [vm_compute; reflexivity|].
  destruct (delitem_local_only ex_env (snd ex_game_res) (built ex_game_res) "res")
    as [_ Hdel].
  destruct (Hdel (VStr "1080p") ltac:(vm_compute; reflexivity))
    as (h' & Hd & Hat & _ & Hread).
  exists h'. split; [exact Hd|].
  assert (Hh : h' = snd (delitem (snd ex_game_res) (built ex_game_res) "res"))
    by (rewrite Hd; reflexivity).
  split; [|split].
  - destruct (getitem ex_env h' (built ex_runner_res) "res") as [[r h''] p'] eqn:E.
    assert (Hr : r = Ok (VStr "native")).
    { apply (f_equal (fun x => fst (fst x))) in E. cbn [fst snd] in E. rewrite <- E, Hh.
      vm_compute. reflexivity. }
    subst r.
    rewrite (Hread (built ex_runner_res) ltac:(vm_compute; reflexivity)
               ltac:(vm_compute; reflexivity) ltac:(vm_compute; reflexivity)
               _ _ _ E).
    reflexivity.
  - rewrite Hh. vm_compute. reflexivity.
  - destruct (delitem_local_only ex_env h' (built ex_game_res) "res") as [Hmiss _].
    apply Hmiss. rewrite Hat. apply lookup_delete_eq.
Defined.

(** C6, as stated, fails for a key with a special getter.  The game
    level's catalog gives [vol] the getter 1; the game level stores the
    override 5 over the runner's 21 and reads 10.  After deleting the
    override the runner reads 21, and the game level reads what its getter
    makes of the runner's value, 42. *)
Lemma delitem_getter_key_not_exposed :
  fst ex_game_vol = Ok (built ex_game_vol)
  /\ fst (fst (getitem ex_env (snd ex_game_vol) (built ex_game_vol) "vol")) = Ok (VInt 10)
  /\ fst (delitem (snd ex_game_vol) (built ex_game_vol) "vol") = Ok tt
  /\ fst (fst (getitem ex_env (snd (delitem (snd ex_game_vol) (built ex_game_vol) "vol"))
                 (built ex_runner_vol) "vol"))
     = Ok (VInt 21)
  /\ fst (fst (getitem ex_env (snd (delitem (snd ex_game_vol) (built ex_game_vol) "vol"))
                 (built ex_game_vol) "vol"))
     = Ok (VInt 42).
Proof. vm_compute. repeat split. Qed.

(** ** Construction *)

Lemma chain_resolves_unfold (self : CascadingConfig) :
  chain_resolves self = catalogs_resolve (definition self) (parent self).
Proof. by destruct self. Qed.

(** The constructor succeeds exactly when the catalogs resolve, and raises
    [NameError] otherwise, after the local dict was made. *)
Lemma CascadingConfig_init_outcome k h defn dat par :
  if catalogs_resolve defn par
  then exists self, CascadingConfig_init k h defn dat par = (Ok self, snd (init_store h dat))
                    /\ data self = fst (init_store h dat)
  else CascadingConfig_init k h defn dat par = (Raise NameError, snd (init_store h dat)).
Proof.
  unfold CascadingConfig_init, init_store.
  destruct (match dat with Some d => (d, h) | None => alloc_dict h ∅ end) as [l h1] eqn:E.
  replace (match dat with Some d => (d, h) | None => alloc_dict h ∅ end) with (l, h1)
    by (destruct dat; exact (eq_sym E)).
  rewrite build_getter_cache_spec, chain_resolves_unfold. simpl.
  destruct (catalogs_resolve defn par).
  - eexists. split; reflexivity.
  - reflexivity.
Qed.

(** C7, on the code.  The caches of defaults and of validators hold, for
    every key, the entry of the most specific catalog of the chain that
    defines the field, and so does the getter cache for the catalogs'
    explicit getters, provided every entry resolves.  An entry that asks
    for the built-in cascade or transform getter does not: building the
    getter cache raises [NameError], and with it the constructor. *)
Theorem definition_caches (self : CascadingConfig) (key : string) :
  build_definition_cache opt_default self !! key = most_specific opt_default self key
  /\ build_definition_cache opt_validate self !! key = most_specific opt_validate self key
  /\ build_getter_cache self =
       (if chain_resolves self then Ok (build_definition_cache opt_getter self)
        else Raise NameError)
  /\ build_definition_cache opt_getter self !! key = most_specific opt_getter self key
  /\ (forall d, In (key, d) (definition self) ->
                opt_getter d = None ->
                opt_cascade d = Some true \/ is_Some (opt_transform d) ->
                build_getter_cache self = Raise NameError
                /\ forall k h dat,
                     fst (CascadingConfig_init k h (definition self) dat (parent self))
                     = Raise NameError).
Proof.
  assert (Hbad : forall d, In (key, d) (definition self) -> opt_getter d = None ->
                   opt_cascade d = Some true \/ is_Some (opt_transform d) ->
                   entry_resolves d = false).
  { intros d _ Hg Hc. unfold entry_resolves. rewrite Hg.
    destruct Hc as [-> | [t ->]]; [reflexivity | by destruct (opt_cascade d) as [[|]|]]. }
  split; [apply build_definition_cache_lookup|].
  split; [apply build_definition_cache_lookup|].
  split; [apply build_getter_cache_spec|].
  split; [apply build_definition_cache_lookup|].
  intros d Hin Hg Hc. split.
  - rewrite build_getter_cache_spec, chain_resolves_unfold. unfold catalogs_resolve.
    rewrite (unresolved_entry _ _ _ Hin (Hbad d Hin Hg Hc)). reflexivity.
  - intros k h dat.
    exact (CascadingConfig_init_unresolved _ _ _ _ _ _ _ Hin (Hbad d Hin Hg Hc)).
Qed.

(** Under a system level whose catalog gives [x] an explicit getter, a
    runner level whose catalog gives [x] a transform cannot be built. *)
Lemma definition_caches_witness :
  fst ex_system_getter = Ok (built ex_system_getter)
  /\ fst (CascadingConfig_init KCascadingConfig (snd ex_system_getter)
            [("x", transforming 0)] None (Some (built ex_system_getter)))
     = Raise NameError.
Proof.
  split; [vm_compute; reflexivity|].
  pose (runner := mkConfig KCascadingConfig 1%positive [("x", transforming 0)]
                    (Proxy 1%positive) (Some (built ex_system_getter)) ∅ ∅ ∅ ∅).
  destruct (definition_caches runner "x") as (_ & _ & _ & _ & Hbad).
  destruct (Hbad (transforming 0)
              ltac:(left; reflexivity) ltac:(reflexivity)
              ltac:(right; eexists; reflexivity)) as [_ Hinit].
  apply (Hinit KCascadingConfig (snd ex_system_getter) None).
Defined.

(** ** Promotion of a temporary game *)

(** C8.  On a wrapper at level ["game"] whose identifier is the temporary
    marker and whose game level is a [TempGameConfig], assigning any other
    identifier succeeds: the new game level is a [GameConfig] with that
    identifier over the same dict object (so every local value set before
    is there), with the same definition and the same parent, and the heap
    is unchanged.  Every later assignment raises the exception and changes
    nothing. *)
Theorem promotion_once (CONFIG_DIR : string) (fs : filesystem) (h : heap)
    (self : LutrisConfig) (value : option string) :
  _game_config_id self = Some TEMP_CONFIG ->
  level self = "game" ->
  cls (lc_config self) = KTempGameConfig ->
  build_getter_cache (lc_config self) = Ok (getter_cache (lc_config self)) ->
  value <> Some TEMP_CONFIG ->
  exists self',
    set_game_config_id CONFIG_DIR fs h self value = (Ok tt, h, self')
    /\ _game_config_id self' = value
    /\ level self' = "game"
    /\ cls (lc_config self') =
         KGameConfig (os_path_join CONFIG_DIR ["games/" +:+ fmt_s value +:+ ".yml"]) value
    /\ data (lc_config self') = data (lc_config self)
    /\ local_store (lc_config self') = data (lc_config self)
    /\ definition (lc_config self') = definition (lc_config self)
    /\ parent (lc_config self') = parent (lc_config self)
    /\ (forall fs' h' value',
          set_game_config_id CONFIG_DIR fs' h' self' value' = (Raise PlainException, h', self')).
Proof.
  intros Hid Hlevel Hcls Hcache Hvalue.
  assert (Hres : catalogs_resolve (definition (lc_config self)) (parent (lc_config self)) = true).
  { rewrite <- chain_resolves_unfold.
    rewrite build_getter_cache_spec in Hcache.
    by destruct (chain_resolves (lc_config self)). }
  pose proof (CascadingConfig_init_outcome
                (KGameConfig (os_path_join CONFIG_DIR ["games/" +:+ fmt_s value +:+ ".yml"]) value)
                h (definition (lc_config self)) (Some (data (lc_config self)))
                (parent (lc_config self))) as Hinit.
  rewrite Hres in Hinit. destruct Hinit as (game & Hinit & Hdata).
  cbn [init_store fst snd] in Hinit, Hdata.
  destruct (CascadingConfig_init_ok _ _ _ _ _ _ _ Hinit)
    as (Hk & Hdef & Hpar & Hconf & _).
  exists (mkLutrisConfig value (runner_slug self) (level self) game).
  split.
  - unfold set_game_config_id, game_level.
    rewrite Hid, Hlevel.
    destruct (decide (Some TEMP_CONFIG = Some TEMP_CONFIG)); [|contradiction].
    destruct (decide ("game" = "game")); [|contradiction].
    unfold assign_id, GameConfig_init, ConfigFile_init.
    rewrite Hcls, Hinit. reflexivity.
  - simpl. repeat split; try assumption.
    + unfold local_store. rewrite Hconf, Hdata. by destruct (parent (lc_config self)).
    + intros fs' h' value'. unfold set_game_config_id. simpl.
      destruct (decide (value = Some TEMP_CONFIG)); [contradiction | reflexivity].
Qed.

(** The promoted game level still reads the value set before; a second
    assignment raises. *)
Lemma promotion_once_witness :
  fst ex_temp = Ok (built_wrapper ex_temp)
  /\ exists self',
       set_game_config_id "/cfg" ∅ ex_temp_heap (built_wrapper ex_temp)
         (Some "halflife2-173") = (Ok tt, ex_temp_heap, self')
       /\ cls (lc_config self') = KGameConfig "/cfg/games/halflife2-173.yml" (Some "halflife2-173")
       /\ fst (fst (getitem ex_env ex_temp_heap (lc_config self') "exe")) = Ok (VStr "hl2.exe")
       /\ fst (fst (set_game_config_id "/cfg" ∅ ex_temp_heap self' (Some "halflife2-174")))
          = Raise PlainException.
Proof.
  split; [vm_compute; reflexivity|].
  destruct (promotion_once "/cfg" ∅ ex_temp_heap (built_wrapper ex_temp)
              (Some "halflife2-173")
              ltac:(vm_compute; reflexivity) ltac:(vm_compute; reflexivity)
              ltac:(vm_compute; reflexivity) ltac:(vm_compute; reflexivity)
              ltac:(discriminate))
    as (self' & Hset & _ & _ & Hcls & _ & _ & _ & _ & Hagain).
  exists self'. split; [exact Hset|]. split; [exact Hcls|]. split.
  - assert (Hs : self' = snd (set_game_config_id "/cfg" ∅ ex_temp_heap
                                (built_wrapper ex_temp) (Some "halflife2-173")))
      by (rewrite Hset; reflexivity).
    rewrite Hs. vm_compute. reflexivity.
  - rewrite Hagain. reflexivity.
Defined.

(** ** File-backed configurations *)

(** C9, on the code.  When the file does not exist and no data is passed,
    [ConfigFile.__init__] reads nothing and constructs as
    [CascadingConfig.__init__] does without data: over a new empty dict.
    The construction succeeds when the catalogs resolve; a catalog entry
    that asks for the built-in cascade or transform getter makes it raise
    [NameError], file or no file. *)
Theorem ConfigFile_init_missing_file (k : string -> klass) (fs : filesystem)
    (h : heap) (defn : catalog) (filename : string) (par : option CascadingConfig) :
  fs !! filename = None ->
  ConfigFile_init k fs h defn filename par None
  = CascadingConfig_init (k filename) h defn None par
  /\ h !! fresh (dom h) = None
  /\ if catalogs_resolve defn par
     then exists self,
            ConfigFile_init k fs h defn filename par None
            = (Ok self, <[fresh (dom h) := ∅]> h)
            /\ data self = fresh (dom h)
            /\ local_store self = data self
            /\ dict_at (<[fresh (dom h) := ∅]> h) (data self) = ∅
     else ConfigFile_init k fs h defn filename par None
          = (Raise NameError, <[fresh (dom h) := ∅]> h).
Proof.
  intros Hfile.
  assert (Heq : ConfigFile_init k fs h defn filename par None
                = CascadingConfig_init (k filename) h defn None par).
  { unfold ConfigFile_init, path_exists. by rewrite Hfile. }
  split; [exact Heq|].
  split; [apply not_elem_of_dom, is_fresh|].
  rewrite Heq.
  pose proof (CascadingConfig_init_outcome (k filename) h defn None par) as Hinit.
  destruct (catalogs_resolve defn par); [|exact Hinit].
  destruct Hinit as (self & Hinit & Hdata). cbn [init_store alloc_dict fst snd] in Hinit, Hdata.
  exists self. split; [exact Hinit|]. split; [exact Hdata|].
  destruct (CascadingConfig_init_ok _ _ _ _ _ _ _ Hinit) as (_ & _ & _ & Hconf & _).
  split.
  - unfold local_store. rewrite Hconf. by destruct par.
  - rewrite Hdata. unfold dict_at. by rewrite lookup_insert_eq.
Qed.

(** With nothing on disk, a catalog of plain options gives an empty
    configuration, and a catalog with a transform gives [NameError]. *)
Lemma ConfigFile_init_missing_file_witness :
  (exists self,
     ConfigFile_init KSystemConfig no_files (∅ : heap)
       [("resolution", defaulted (VStr "native"))]
       "/cfg/system.yml" None None = (Ok self, {[ 1%positive := ∅ ]})
     /\ data self = 1%positive)
  /\ ConfigFile_init KSystemConfig no_files (∅ : heap)
       [("x", transforming 0)]
       "/cfg/system.yml" None None = (Raise NameError, {[ 1%positive := ∅ ]}).
Proof.
  split.
  - destruct (ConfigFile_init_missing_file KSystemConfig no_files (∅ : heap)
                [("resolution", defaulted (VStr "native"))]
                "/cfg/system.yml" None ltac:(vm_compute; reflexivity)) as (_ & _ & H).
    destruct H as (self & Hinit & Hdata & _). exists self. split; [exact Hinit | exact Hdata].
  - destruct (ConfigFile_init_missing_file KSystemConfig no_files (∅ : heap)
                [("x", transforming 0)]
                "/cfg/system.yml" None ltac:(vm_compute; reflexivity)) as (_ & _ & H).
    exact H.
Defined.

(** ** Membership and defaults *)

Lemma rootmost_default_unfold (self : CascadingConfig) (key : string) :
  rootmost_default self key =
  match parent self with
  | Some p =>
      match rootmost_default p key with
      | Some d => Some d
      | None => defaults self !! key
      end
  | None => defaults self !! key
  end.
Proof. by destruct self. Qed.

(** A key stored nowhere is not a member. *)
Lemma contains_stored_nowhere (h : heap) (key : string) (self : CascadingConfig) :
  cascade_shaped self -> stored_nowhere h self key -> contains h self key = Ok false.
Proof.
  induction self as [c Hroot | c p Hp IH] using chain_ind;
    intros Hshape Hstored; rewrite contains_unfold;
    destruct c as [k d df v par dfl vc gc cc]; simpl in *; subst par;
    destruct Hshape as [-> Hshape], Hstored as [Hlocal Hstored];
    unfold local_store in *; simpl in *; unfold dict_contains; rewrite Hlocal.
  - reflexivity.
  - exact (IH Hshape Hstored).
Qed.

(** A key read through the cascade and stored nowhere: membership is
    false, and the read is the default of the root-most level that caches
    one, or a [KeyError]. *)
Lemma plain_read (env : callbacks) (h : heap) (key : string) (self : CascadingConfig) :
  cascade_shaped self -> plain_key self key -> stored_nowhere h self key ->
  contains h self key = Ok false
  /\ getitem env h self key =
       (match rootmost_default self key with
        | Some d => Ok d
        | None => Raise KeyError
        end, h, self).
Proof.
  induction self as [c Hroot | c p Hp IH] using chain_ind;
    intros Hshape Hplain Hstored;
    rewrite contains_unfold, getitem_unfold, rootmost_default_unfold;
    unfold getitem_body;
    destruct c as [k d df v par dfl vc gc cc]; simpl in *; subst par;
    destruct Hshape as [-> Hshape], Hplain as [-> Hplain], Hstored as [Hlocal Hstored];
    unfold local_store in *; simpl in *; unfold dict_contains, dict_getitem.
  - rewrite Hlocal. simpl. split; [reflexivity|]. by destruct (dfl !! key).
  - rewrite Hlocal. destruct (IH Hshape Hplain Hstored) as [-> ->].
    split; [reflexivity|].
    destruct (rootmost_default p key); [reflexivity|]. simpl. by destruct (dfl !! key).
Qed.

Lemma rootmost_default_agrees (key : string) (d : value) (self : CascadingConfig) :
  Forall (fun a => defaults a !! key = None \/ defaults a !! key = Some d) (ancestors self) ->
  (defaults self !! key = None \/ defaults self !! key = Some d) ->
  rootmost_default self key = None \/ rootmost_default self key = Some d.
Proof.
  induction self as [c Hroot | c p Hp IH] using chain_ind;
    intros Hanc Hself; rewrite rootmost_default_unfold;
    destruct c as [k l df v par dfl vc gc cc]; simpl in *; subst par.
  - exact Hself.
  - inversion Hanc as [|a rest Ha Hrest]; subst.
    destruct (IH Hrest Ha) as [-> | ->]; [exact Hself | by right].
Qed.

(** C10, as the code has it.  Membership asks the local dicts of the chain
    and never the defaults: a key with a default cached at this level that
    no level stores is not a member.  If, moreover, no level reads the key
    through a special getter, the read succeeds with a cached default of
    the key, the one of the root-most level of the chain that caches one;
    this is [defaults[key]] of this level whenever no ancestor caches a
    different default for the key. *)
Theorem contains_ignores_defaults (env : callbacks) (h : heap)
    (self : CascadingConfig) (key : string) (d : value) :
  cascade_shaped self ->
  stored_nowhere h self key ->
  defaults self !! key = Some d ->
  contains h self key = Ok false
  /\ (plain_key self key ->
      exists d',
        rootmost_default self key = Some d'
        /\ getitem env h self key = (Ok d', h, self)
        /\ (Forall (fun a => defaults a !! key = None \/ defaults a !! key = Some d)
                   (ancestors self) -> d' = d)).
Proof.
  intros Hshape Hstored Hd.
  split; [exact (contains_stored_nowhere h key self Hshape Hstored)|].
  intros Hplain.
  destruct (plain_read env h key self Hshape Hplain Hstored) as [Hin Hread].
  assert (Hsome : is_Some (rootmost_default self key)).
  { rewrite rootmost_default_unfold, Hd.
    destruct (parent self) as [p|]; [|eauto].
    destruct (rootmost_default p key); eauto. }
  destruct Hsome as [d' Hd']. exists d'. rewrite Hread, Hd'.
  split; [reflexivity|]. split; [reflexivity|].
  intros Hanc.
  destruct (rootmost_default_agrees key d self Hanc (or_intror Hd)) as [E|E];
    congruence.
Qed.

(** At the runner level of the example [resolution] is not a member and
    reads as the system catalog's default. *)
Lemma contains_ignores_defaults_witness :
  contains (snd ex_runner_default) (built ex_runner_default) "resolution" = Ok false
  /\ fst (fst (getitem ex_env (snd ex_runner_default) (built ex_runner_default) "resolution"))
     = Ok (VStr "native").
Proof.
  destruct (contains_ignores_defaults ex_env (snd ex_runner_default)
              (built ex_runner_default) "resolution" (VStr "native")
              ltac:(vm_compute; repeat split) ltac:(vm_compute; repeat split)
              ltac:(vm_compute; reflexivity))
    as (Hin & Hplain).
  destruct (Hplain ltac:(vm_compute; repeat split)) as (d' & _ & Hread & Hd').
  split; [exact Hin|]. rewrite Hread. cbn [fst].
  rewrite Hd'; [reflexivity|].
  assert (Hanc : ancestors (built ex_runner_default) = [built ex_system_default])
    by (vm_compute; reflexivity).
  rewrite Hanc. constructor; [|constructor].
  right. vm_compute. reflexivity.
Defined.

(** C10, as stated, fails: [x] has the catalog default 1 and is stored
    nowhere, membership is false, and the read succeeds, with what the
    key's getter returns and not with the default. *)
Lemma read_prefers_getter_to_default :
  fst ex_getter_default = Ok (built ex_getter_default)
  /\ defaults (built ex_getter_default) !! "x" = Some (VInt 1)
  /\ dict_at (snd ex_getter_default) (data (built ex_getter_default)) !! "x" = None
  /\ contains (snd ex_getter_default) (built ex_getter_default) "x" = Ok false
  /\ fst (fst (getitem ex_env (snd ex_getter_default) (built ex_getter_default) "x"))
     = Ok (VInt 42).
Proof. vm_compute. repeat split. Qed.

(** Where the runner catalog redefines the default of [resolution], the
    runner's cache holds the runner's default, and the read at the runner
    level returns the system's. *)
Lemma read_returns_rootmost_default :
  defaults (built ex_runner_redefault) !! "resolution" = Some (VStr "1080p")
  /\ contains (snd ex_runner_redefault) (built ex_runner_redefault) "resolution" = Ok false
  /\ fst (fst (getitem ex_env (snd ex_runner_redefault) (built ex_runner_redefault)
                 "resolution"))
     = Ok (VStr "native").
Proof. vm_compute. repeat split. Qed.

(** ** Keys read through the cascade *)

Lemma nearest_local_unfold (h : heap) (self : CascadingConfig) (key : string) :
  nearest_local h self key =
  match dict_at h (local_store self) !! key with
  | Some v => Some v
  | None =>
      match parent self with
      | Some p => nearest_local h p key
      | None => None
      end
  end.
Proof. by destruct self. Qed.

(** Membership on a chain of the shape [cascade] gives never raises: a key
    is a member exactly when some level of the chain stores it. *)
Theorem contains_some_level (h : heap) (self : CascadingConfig) (key : string) :
  cascade_shaped self ->
  contains h self key =
  Ok (match nearest_local h self key with Some _ => true | None => false end).
Proof.
  induction self as [c Hroot | c p Hp IH] using chain_ind;
    intros Hshape; rewrite contains_unfold, nearest_local_unfold;
    destruct c as [k d df v par dfl vc gc cc]; simpl in *; subst par;
    destruct Hshape as [-> Hshape];
    unfold local_store in *; simpl in *; unfold dict_contains.
  - by destruct (dict_at h _ !! key).
  - destruct (dict_at h _ !! key); [reflexivity | exact (IH Hshape)].
Qed.

Lemma getitem_cascaded (env : callbacks) (h : heap) (self : CascadingConfig)
    (key : string) :
  cascade_shaped self -> plain_key self key ->
  getitem env h self key = (cascaded h self key, h, self).
Proof.
  unfold cascaded.
  induction self as [c Hroot | c p Hp IH] using chain_ind;
    intros Hshape Hplain;
    rewrite getitem_unfold, nearest_local_unfold, rootmost_default_unfold;
    unfold getitem_body;
    destruct c as [k d df v par dfl vc gc cc]; simpl in *; subst par;
    destruct Hshape as [-> Hshape], Hplain as [-> Hplain];
    unfold local_store in *; simpl in *; unfold dict_contains, dict_getitem.
  - destruct (dict_at h _ !! key); [reflexivity|]. simpl. by destruct (dfl !! key).
  - destruct (dict_at h _ !! key); [reflexivity|].
    rewrite (IH Hshape Hplain).
    destruct (nearest_local h p key); [reflexivity|].
    destruct (rootmost_default p key); [reflexivity|]. simpl. by destruct (dfl !! key).
Qed.

(** A key that no level reads through a special getter reads as the value
    of the nearest level that stores it; where no level stores it, as the
    default of the root-most level that caches one; else the read raises
    [KeyError].  The read changes neither the heap nor the configuration. *)
Theorem plain_key_read (env : callbacks) (h : heap) (self : CascadingConfig)
    (key : string) :
  cascade_shaped self -> plain_key self key ->
  getitem env h self key =
  (match nearest_local h self key with
   | Some v => Ok v
   | None =>
       match rootmost_default self key with
       | Some d => Ok d
       | None => Raise KeyError
       end
   end, h, self).
Proof. exact (getitem_cascaded env h self key). Qed.

(** At the game level of the example [res] is a member and reads as the
    game's override; [missing] is stored nowhere and is no member. *)
Lemma contains_some_level_witness :
  contains (snd ex_game_res) (built ex_game_res) "res" = Ok true
  /\ contains (snd ex_game_res) (built ex_game_res) "missing" = Ok false.
Proof.
  rewrite (contains_some_level (snd ex_game_res) (built ex_game_res) "res"
             ltac:(vm_compute; repeat split)).
  rewrite (contains_some_level (snd ex_game_res) (built ex_game_res) "missing"
             ltac:(vm_compute; repeat split)).
  split; vm_compute; reflexivity.
Defined.

Lemma plain_key_read_witness :
  fst (fst (getitem ex_env (snd ex_game_res) (built ex_game_res) "res"))
  = Ok (VStr "1080p")
  /\ fst (fst (getitem ex_env (snd ex_runner_default) (built ex_runner_default) "resolution"))
     = Ok (VStr "native").
Proof.
  rewrite (plain_key_read ex_env (snd ex_game_res) (built ex_game_res) "res"
             ltac:(vm_compute; repeat split) ltac:(vm_compute; repeat split)).
  rewrite (plain_key_read ex_env (snd ex_runner_default) (built ex_runner_default)
             "resolution" ltac:(vm_compute; repeat split) ltac:(vm_compute; repeat split)).
  split; vm_compute; reflexivity.
Defined.

(** [get] on a key read through the cascade never raises: it returns what
    the read returns, and the given default exactly when no level stores
    the key and no level caches a default for it. *)
Theorem get_plain_key (env : callbacks) (h : heap) (self : CascadingConfig)
    (key : string) (dflt : value) :
  cascade_shaped self -> plain_key self key ->
  get env h self key dflt =
  (Ok (match nearest_local h self key with
       | Some v => v
       | None => default dflt (rootmost_default self key)
       end), h, self).
Proof.
  intros Hshape Hplain. unfold get.
  rewrite (getitem_cascaded env h self key Hshape Hplain). unfold cascaded.
  destruct (nearest_local h self key); [reflexivity|].
  by destruct (rootmost_default self key).
Qed.

Lemma get_plain_key_witness :
  fst (fst (get ex_env (snd ex_game_res) (built ex_game_res) "missing" (VInt 0)))
  = Ok (VInt 0)
  /\ fst (fst (get ex_env (snd ex_game_res) (built ex_game_res) "res" (VInt 0)))
     = Ok (VStr "1080p").
Proof.
  rewrite (get_plain_key ex_env (snd ex_game_res) (built ex_game_res) "missing" (VInt 0)
             ltac:(vm_compute; repeat split) ltac:(vm_compute; repeat split)).
  rewrite (get_plain_key ex_env (snd ex_game_res) (built ex_game_res) "res" (VInt 0)
             ltac:(vm_compute; repeat split) ltac:(vm_compute; repeat split)).
  split; vm_compute; reflexivity.
Defined.

(** [get_nodefaults] leaves out the default of the level it is called on
    and nothing else.  For a key read through the cascade and not stored
    at this level: without a parent it raises [KeyError] whatever default
    the key has; with a parent it returns what the parent reads, an
    ancestor's default included. *)
Theorem get_nodefaults_plain_key (env : callbacks) (h : heap)
    (self : CascadingConfig) (key : string) :
  cascade_shaped self -> plain_key self key ->
  get_nodefaults env h self key =
  (match dict_at h (local_store self) !! key with
   | Some v => Ok v
   | None =>
       match parent self with
       | Some p => cascaded h p key
       | None => Raise KeyError
       end
   end, h, self).
Proof.
  intros Hshape Hplain. unfold get_nodefaults.
  destruct self as [k d df v par dfl vc gc cc]; simpl in *.
  destruct par as [p|]; simpl in *;
    destruct Hshape as [-> Hshape], Hplain as [-> Hplain];
    unfold local_store in *; simpl in *; unfold dict_contains, dict_getitem.
  - destruct (dict_at h _ !! key); [reflexivity|].
    by rewrite (getitem_cascaded env h p key Hshape Hplain).
  - by destruct (dict_at h _ !! key).
Qed.

(** [resolution] has the system catalog's default and is stored nowhere:
    at the system level [get_nodefaults] misses it, at the runner level it
    returns the system's default. *)
Lemma get_nodefaults_plain_key_witness :
  fst (fst (get_nodefaults ex_env (snd ex_system_default) (built ex_system_default)
              "resolution")) = Raise KeyError
  /\ fst (fst (get_nodefaults ex_env (snd ex_runner_default) (built ex_runner_default)
                 "resolution")) = Ok (VStr "native").
Proof.
  rewrite (get_nodefaults_plain_key ex_env (snd ex_system_default)
             (built ex_system_default) "resolution"
             ltac:(vm_compute; repeat split) ltac:(vm_compute; repeat split)).
  rewrite (get_nodefaults_plain_key ex_env (snd ex_runner_default)
             (built ex_runner_default) "resolution"
             ltac:(vm_compute; repeat split) ltac:(vm_compute; repeat split)).
  split; vm_compute; reflexivity.
Defined.

(** ** Writing, updating and reading back *)

Lemma setitem_ok_heap (env : callbacks) (h h' : heap) (self : CascadingConfig)
    (key : string) (x : value) :
  setitem env h self key x = (Ok tt, h') ->
  h' = dict_setitem h (local_store self) key x.
Proof.
  unfold setitem. rewrite view_setitem_local.
  destruct (validate_cache self !! key) as [f|]; [|congruence].
  destruct (call_validate env f h self key x) as [[|]|e]; congruence.
Qed.

(** A write that succeeds is read back: for a key without special getter
    at this level, the next read at this level returns the value written,
    whatever the ancestors store or default to, and the key is a member. *)
Theorem setitem_then_read (env : callbacks) (h h' : heap) (self : CascadingConfig)
    (key : string) (x : value) :
  getter_cache self !! key = None ->
  setitem env h self key x = (Ok tt, h') ->
  getitem env h' self key = (Ok x, h', self)
  /\ contains h' self key = Ok true.
Proof.
  intros Hget Hset. apply setitem_ok_heap in Hset.
  assert (Hat : dict_at h' (local_store self) !! key = Some x).
  { subst h'. rewrite dict_setitem_at. apply lookup_insert_eq. }
  unfold local_store in Hat. split.
  - rewrite getitem_unfold. unfold getitem_body. rewrite Hget, view_getitem_cases.
    destruct (config self) as [d|d]; unfold dict_getitem; rewrite Hat; simpl;
      by rewrite set_parent_same.
  - rewrite contains_unfold. unfold view_contains, dict_contains.
    destruct (config self); by rewrite Hat.
Qed.

Lemma setitem_then_read_witness :
  fst (fst (getitem ex_env
              (snd (setitem ex_env (snd ex_game_res) (built ex_game_res) "res" (VStr "720p")))
              (built ex_game_res) "res"))
  = Ok (VStr "720p").
Proof.
  pose proof (setitem_then_read ex_env (snd ex_game_res)
                (snd (setitem ex_env (snd ex_game_res) (built ex_game_res) "res" (VStr "720p")))
                (built ex_game_res) "res" (VStr "720p")
                ltac:(vm_compute; reflexivity) ltac:(vm_compute; reflexivity)) as [H _].
  rewrite H. reflexivity.
Defined.

Lemma nearest_local_ext (h h' : heap) (self : CascadingConfig) (key : string) :
  (forall l, dict_at h' l !! key = dict_at h l !! key) ->
  nearest_local h' self key = nearest_local h self key.
Proof.
  intros Hext.
  induction self as [c Hroot | c p Hp IH] using chain_ind;
    rewrite (nearest_local_unfold h'), (nearest_local_unfold h), Hext, ?Hroot, ?Hp, ?IH;
    reflexivity.
Qed.

Lemma update_local (h : heap) (self : CascadingConfig) (other : loc) :
  update h self other = dict_update h (local_store self) other.
Proof. unfold update, view_update, local_store. by destruct (config self). Qed.

Lemma dict_update_lookup (h : heap) (l other l' : loc) (key : string) :
  dict_at (dict_update h l other) l' !! key =
  if decide (l' = l)
  then match dict_at h other !! key with
       | Some v => Some v
       | None => dict_at h l !! key
       end
  else dict_at h l' !! key.
Proof.
  unfold dict_update. destruct (decide (l' = l)) as [->|Hne].
  - unfold dict_at at 1. rewrite lookup_insert_eq. simpl.
    destruct (dict_at h other !! key) as [v|] eqn:Ho.
    + by apply lookup_union_Some_l.
    + by rewrite lookup_union_r.
  - unfold dict_at at 1. rewrite lookup_insert_ne by done. reflexivity.
Qed.

(** [update] stores the entries of [other] at this level without asking a
    validator: whatever the validator cache holds, a key read through the
    cascade then reads as [other] binds it, and a key that [other] does not
    bind reads as before. *)
Theorem update_then_read (env : callbacks) (h : heap) (self : CascadingConfig)
    (other : loc) (key : string) :
  cascade_shaped self -> plain_key self key ->
  fst (fst (getitem env (update h self other) self key)) =
  match dict_at h other !! key with
  | Some v => Ok v
  | None => fst (fst (getitem env h self key))
  end.
Proof.
  intros Hshape Hplain. rewrite !(getitem_cascaded env _ self key Hshape Hplain).
  cbn [fst]. unfold cascaded. rewrite update_local.
  destruct (dict_at h other !! key) as [v|] eqn:Ho.
  - rewrite nearest_local_unfold, dict_update_lookup, Ho.
    by destruct (decide _).
  - rewrite (nearest_local_ext h); [reflexivity|].
    intros l. rewrite dict_update_lookup, Ho. by destruct (decide _) as [->|].
Qed.

(** The system level validates [speed] and refuses [-5] on assignment;
    [update] with the dict [{"speed": -5}] stores it. *)
Lemma update_then_read_witness :
  fst (setitem ex_env ex_update_heap (built ex_system_speed) "speed" (VInt (-5)))
  = Raise ValueError
  /\ fst (fst (getitem ex_env (update ex_update_heap (built ex_system_speed) 7%positive)
                 (built ex_system_speed) "speed"))
     = Ok (VInt (-5)).
Proof.
  rewrite (update_then_read ex_env ex_update_heap (built ex_system_speed) 7%positive
             "speed" ltac:(vm_compute; repeat split) ltac:(vm_compute; repeat split)).
  split; vm_compute; reflexivity.
Defined.

(** Writing a key that this level does not store and deleting it again
    leaves every dict with the contents it had. *)
Theorem setitem_delitem_restores (env : callbacks) (h h1 : heap)
    (self : CascadingConfig) (key : string) (x : value) :
  dict_at h (local_store self) !! key = None ->
  setitem env h self key x = (Ok tt, h1) ->
  exists h2, delitem h1 self key = (Ok tt, h2) /\ forall l, dict_at h2 l = dict_at h l.
Proof.
  intros Hnone Hset. apply setitem_ok_heap in Hset. subst h1.
  unfold delitem. rewrite view_delitem_local. unfold dict_delitem.
  rewrite dict_setitem_at, lookup_insert_eq. eexists; split; [reflexivity|].
  intros l. destruct (decide (l = local_store self)) as [->|Hne].
  - unfold dict_at at 1. rewrite lookup_insert_eq. simpl.
    by rewrite delete_insert_eq, delete_id.
  - unfold dict_at at 1. rewrite lookup_insert_ne by done.
    fold (dict_at (dict_setitem h (local_store self) key x) l).
    by apply dict_setitem_other.
Qed.

Lemma setitem_delitem_restores_witness :
  exists h2,
    delitem (snd (setitem ex_env (snd ex_game_res) (built ex_game_res) "vol" (VInt 3)))
      (built ex_game_res) "vol" = (Ok tt, h2)
    /\ dict_at h2 2%positive = {[ "res" := VStr "1080p" ]}.
Proof.
  destruct (setitem_delitem_restores ex_env (snd ex_game_res)
              (snd (setitem ex_env (snd ex_game_res) (built ex_game_res) "vol" (VInt 3)))
              (built ex_game_res) "vol" (VInt 3)
              ltac:(vm_compute; reflexivity) ltac:(vm_compute; reflexivity))
    as (h2 & Hdel & Hsame).
  exists h2. split; [exact Hdel|]. rewrite Hsame. vm_compute. reflexivity.
Defined.

(** ** Definitions and catalogs *)

Lemma od_get_od_set (od : catalog) (k key : string) (d : option_def) :
  od_get (od_set od k d) key = if decide (k = key) then Some d else od_get od key.
Proof.
  induction od as [|[k0 d0] rest IH]; simpl.
  - by destruct (decide (k = key)).
  - destruct (decide (k0 = k)) as [->|Hne]; simpl.
    + by destruct (decide (k = key)).
    + destruct (decide (k0 = key)) as [->|Hne'].
      * by destruct (decide (k = key)) as [->|].
      * exact IH.
Qed.

Lemma makedef_fold (options : list (string * option_def)) (acc : catalog) (key : string) :
  od_get (fold_left (fun od opt => od_set od (fst opt) (snd opt)) options acc) key =
  match last_entry Some options key with
  | Some d => Some d
  | None => od_get acc key
  end.
Proof.
  revert acc. induction options as [|[k d] rest IH]; intros acc; simpl; [reflexivity|].
  rewrite IH, od_get_od_set.
  by destruct (last_entry Some rest key), (decide (k = key)).
Qed.

Lemma od_get_makedef (options : list (string * option_def)) (key : string) :
  od_get (makedef options) key = last_entry Some options key.
Proof.
  unfold makedef. rewrite makedef_fold. by destruct (last_entry Some options key).
Qed.

(** [makedef] keeps one entry per option name, and for a name given more
    than once the last option with that name, whole: a field that only an
    earlier option with the name has is not in the catalog. *)
Theorem makedef_last_wins (options : list (string * option_def)) (key : string) :
  od_get (makedef options) key = last_entry Some options key
  /\ NoDup (map fst (makedef options))
  /\ forall (A : Type) (name : option_def -> option A),
       last_entry name (makedef options) key = last_entry Some options key ≫= name.
Proof.
  split; [apply od_get_makedef|]. split; [apply makedef_NoDup|].
  intros A name. rewrite (last_entry_od_get name _ key (makedef_NoDup options)).
  by rewrite od_get_makedef.
Qed.

Lemma get_definition_field_unfold {A : Type} (name : option_def -> option A)
    (self : CascadingConfig) (key : string) :
  get_definition_field name self key =
  match od_get (definition self) key with
  | Some d => name d
  | None =>
      match parent self with
      | Some p => get_definition_field name p key
      | None => None
      end
  end.
Proof. by destruct self. Qed.

Lemma most_specific_unfold {A : Type} (name : option_def -> option A)
    (self : CascadingConfig) (key : string) :
  most_specific name self key =
  match last_entry name (definition self) key with
  | Some x => Some x
  | None =>
      match parent self with
      | Some p => most_specific name p key
      | None => None
      end
  end.
Proof. by destruct self. Qed.

(** Where [get_definition(key, name)] finds a field, the cache that
    [build_definition_cache(name)] builds holds the same value for the key.
    (The converse fails: the method stops at the nearest catalog that
    defines the key, the cache goes on to the ancestors' catalogs.) *)
Theorem get_definition_field_cached {A : Type} (name : option_def -> option A)
    (self : CascadingConfig) (key : string) (x : A) :
  catalogs_unique self ->
  get_definition_field name self key = Some x ->
  build_definition_cache name self !! key = Some x.
Proof.
  rewrite build_definition_cache_lookup.
  induction self as [c Hroot | c p Hp IH] using chain_ind;
    rewrite get_definition_field_unfold, most_specific_unfold;
    destruct c as [k d df v par dfl vc gc cc]; simpl in *; subst par;
    intros [Hnodup Hrest]; rewrite (last_entry_od_get name df key Hnodup);
    destruct (od_get df key) as [d0|]; simpl.
  - by intros ->.
  - discriminate.
  - by intros ->.
  - exact (IH Hrest).
Qed.

Lemma get_definition_field_cached_witness :
  get_definition_field opt_default (built ex_runner_redefault) "resolution"
  = Some (VStr "1080p")
  /\ build_definition_cache opt_default (built ex_runner_redefault) !! "resolution"
     = Some (VStr "1080p")
  /\ get_definition_field opt_default (built ex_runner_default) "resolution"
     = Some (VStr "native").
Proof.
  split; [vm_compute; reflexivity|]. split; [|vm_compute; reflexivity].
  apply (get_definition_field_cached opt_default (built ex_runner_redefault)
           "resolution" (VStr "1080p")).
  - vm_compute. repeat constructor; set_solver.
  - vm_compute. reflexivity.
Defined.

(** ** What a read leaves as it was *)

Lemma same_binding_unfold (c c' : CascadingConfig) :
  same_binding c c' <->
  cls c' = cls c /\ data c' = data c /\ config c' = config c
  /\ definition c' = definition c /\ defaults c' = defaults c
  /\ validate_cache c' = validate_cache c /\ getter_cache c' = getter_cache c
  /\ same_parent (parent c) (parent c').
Proof. by destruct c. Qed.

Lemma same_binding_refl (c : CascadingConfig) : same_binding c c.
Proof.
  induction c as [c Hroot | c p Hp IH] using chain_ind;
    apply same_binding_unfold; repeat split; try reflexivity.
  - by rewrite Hroot.
  - by rewrite Hp.
Qed.

Lemma same_binding_set_parent (c : CascadingConfig) (par' : option CascadingConfig) :
  same_parent (parent c) par' -> same_binding c (set_parent c par').
Proof. intros H. apply same_binding_unfold. by repeat split. Qed.

Lemma same_binding_set_cascade_cache (c : CascadingConfig) (m : gmap string value) :
  same_binding c (set_cascade_cache c m).
Proof.
  apply same_binding_unfold. repeat split; try reflexivity.
  simpl. pose proof (same_binding_refl c) as H.
  apply same_binding_unfold in H. apply H.
Qed.

Lemma keeps_entries_refl (h : heap) : keeps_entries h h.
Proof. by intros l k v. Qed.

Lemma keeps_entries_setdefault (h : heap) (l : loc) (key : string) :
  keeps_entries h (dict_setdefault_new h l key).
Proof.
  unfold dict_setdefault_new. destruct (dict_at h l !! key) eqn:Hk;
    [apply keeps_entries_refl|].
  unfold alloc_dict. intros l' k v Hv.
  assert (Hfresh : h !! fresh (dom h) = None)
    by (apply not_elem_of_dom, is_fresh).
  assert (Hl' : l' <> fresh (dom h)).
  { intros ->. unfold dict_at in Hv. by rewrite Hfresh in Hv. }
  assert (Hkeep : dict_at (<[fresh (dom h) := ∅]> h) l' = dict_at h l').
  { unfold dict_at. by rewrite lookup_insert_ne. }
  destruct (decide (l' = l)) as [->|Hne].
  - rewrite dict_setitem_at, Hkeep.
    destruct (decide (k = key)) as [->|Hkne]; [congruence|].
    by rewrite lookup_insert_ne.
  - rewrite dict_setitem_other by done. by rewrite Hkeep.
Qed.

Lemma view_getitem_preserves (v : view) (par : option CascadingConfig)
    (pg : heap -> string -> read (option CascadingConfig)) (h : heap) (key : string) :
  (forall h key, same_parent par (snd (pg h key))
                 /\ keeps_entries h (snd (fst (pg h key)))) ->
  same_parent par par ->
  same_parent par (snd (view_getitem v par pg h key))
  /\ keeps_entries h (snd (fst (view_getitem v par pg h key))).
Proof.
  intros Hpg Hrefl. unfold view_getitem. destruct v as [d|this]; simpl.
  - split; [exact Hrefl | apply keeps_entries_refl].
  - destruct (dict_contains h this key); simpl; [|apply Hpg].
    split; [exact Hrefl | apply keeps_entries_refl].
Qed.

Lemma same_parent_refl (par : option CascadingConfig) : same_parent par par.
Proof. destruct par; simpl; [apply same_binding_refl | exact I]. Qed.

Lemma getitem_body_preserves (env : callbacks)
    (pg : heap -> string -> read (option CascadingConfig))
    (h : heap) (self : CascadingConfig) (key : string) :
  (forall h key, same_parent (parent self) (snd (pg h key))
                 /\ keeps_entries h (snd (fst (pg h key)))) ->
  same_binding self (snd (getitem_body env pg h self key))
  /\ keeps_entries h (snd (fst (getitem_body env pg h self key))).
Proof.
  intros Hpg.
  pose proof (view_getitem_preserves (config self) (parent self) pg h key Hpg
                (same_parent_refl _)) as Hview.
  unfold getitem_body. destruct (getter_cache self !! key) as [[f| |]|].
  - simpl. split; [apply same_binding_refl | apply keeps_entries_refl].
  - unfold invoke_getter, cascade_getter.
    destruct (cascade_cache self !! key); simpl;
      [split; [apply same_binding_refl | apply keeps_entries_refl]|].
    destruct (parent self), (dict_getitem _ (data self) key); simpl;
      (split; [first [apply same_binding_refl | apply same_binding_set_cascade_cache]
              | apply keeps_entries_setdefault]).
  - unfold invoke_getter, transform_getter.
    destruct (contains h self key) as [[|]|e]; simpl;
      try (split; [apply same_binding_refl | apply keeps_entries_refl]).
    destruct (od_get (definition self) key) as [defn|]; simpl;
      try (split; [apply same_binding_refl | apply keeps_entries_refl]).
    destruct (opt_transform defn) as [t|]; simpl;
      try (split; [apply same_binding_refl | apply keeps_entries_refl]).
    destruct (view_getitem _ _ _ _ _) as [[r h1] par']; simpl in *.
    destruct Hview as [Hsame Hkeep].
    destruct r; simpl; (split; [by apply same_binding_set_parent | exact Hkeep]).
  - destruct (view_getitem _ _ _ _ _) as [[r h1] par']; simpl in *.
    destruct Hview as [Hsame Hkeep].
    split; [by apply same_binding_set_parent | exact Hkeep].
Qed.

(** A read, through whatever getters, rebinds nothing and loses nothing:
    every level of the chain keeps its class, data, proxy, definition and
    definition caches (only cascade caches may be filled), and every entry
    that a dict holds before the read it holds after it with the same
    value. *)
Theorem getitem_preserves (env : callbacks) (self : CascadingConfig) :
  forall (h : heap) (key : string),
    same_binding self (snd (getitem env h self key))
    /\ keeps_entries h (snd (fst (getitem env h self key))).
Proof.
  induction self as [c Hroot | c p Hp IH] using chain_ind; intros h key;
    rewrite getitem_unfold; apply getitem_body_preserves; intros h0 key0.
  - rewrite Hroot. simpl. split; [exact I | apply keeps_entries_refl].
  - rewrite Hp. simpl. specialize (IH h0 key0).
    destruct (getitem env h0 p key0) as [[r h1] p']. exact IH.
Qed.

(** ** The cascading getter on a configuration without parent *)

(** On a configuration without parent whose getter cache names
    [cascade_getter] for a key, the first read returns what the data dict
    holds under the key, after storing a new dict there when the key is
    absent.  The object is cached per key: every later read returns it
    without touching the heap, whatever the dicts hold by then. *)
Theorem cascade_read_root (env : callbacks) (h : heap) (self : CascadingConfig)
    (key : string) :
  parent self = None ->
  getter_cache self !! key = Some CascadeGetter ->
  cascade_cache self !! key = None ->
  exists v h' self',
    getitem env h self key = (Ok v, h', self')
    /\ dict_at h' (data self) !! key = Some v
    /\ match dict_at h (data self) !! key with
       | Some v0 => v = v0 /\ h' = h
       | None => v = VDict (fresh (dom h)) /\ h !! fresh (dom h) = None
       end
    /\ forall h2, getitem env h2 self' key = (Ok v, h2, self').
Proof.
  intros Hroot Hget Hcache.
  assert (Hlater : forall v h2,
             getitem env h2 (set_cascade_cache self (<[key := v]> (cascade_cache self))) key
             = (Ok v, h2, set_cascade_cache self (<[key := v]> (cascade_cache self)))).
  { intros v h2. rewrite getitem_unfold. unfold getitem_body. simpl.
    rewrite Hget. unfold invoke_getter, cascade_getter. simpl.
    by rewrite lookup_insert_eq. }
  rewrite getitem_unfold. unfold getitem_body. rewrite Hget.
  unfold invoke_getter, cascade_getter. rewrite Hcache, Hroot.
  unfold dict_setdefault_new.
  destruct (dict_at h (data self) !! key) as [v0|] eqn:Hk.
  - unfold dict_getitem. rewrite Hk. simpl.
    exists v0, h, (set_cascade_cache self (<[key := v0]> (cascade_cache self))).
    repeat split; [exact Hk | apply Hlater].
  - unfold alloc_dict, dict_getitem. rewrite dict_setitem_at, lookup_insert_eq. simpl.
    eexists _, _, _. split; [reflexivity|].
    split; [by rewrite dict_setitem_at, lookup_insert_eq|].
    split; [split; [reflexivity | apply not_elem_of_dom, is_fresh]|].
    apply Hlater.
Qed.

(** The system level of the example names [cascade_getter] for [env]: the
    first read stores a new dict, and a read after [env] was reassigned
    still returns that dict. *)
Lemma cascade_read_root_witness :
  exists v h' self',
    getitem ex_env (snd ex_system_env) (built ex_system_env) "env" = (Ok v, h', self')
    /\ v = VDict 2%positive
    /\ getitem ex_env (dict_setitem h' 1%positive "env" (VInt 0)) self' "env"
       = (Ok v, dict_setitem h' 1%positive "env" (VInt 0), self').
Proof.
  destruct (cascade_read_root ex_env (snd ex_system_env) (built ex_system_env) "env"
              ltac:(vm_compute; reflexivity) ltac:(vm_compute; reflexivity)
              ltac:(vm_compute; reflexivity))
    as (v & h' & self' & Hread & _ & Hnew & Hlater).
  exists v, h', self'. split; [exact Hread|]. split; [|apply Hlater].
  replace (dict_at (snd ex_system_env) (data (built ex_system_env)) !! "env")
    with (@None value) in Hnew by (vm_compute; reflexivity).
  destruct Hnew as [-> _]. vm_compute. reflexivity.
Defined.

(** ** Configurations read from files *)

(** What [ConfigFile] makes of the file when no data is passed.  A file
    that does not parse makes the construction fail with the parser's
    error, before any definition is looked at.  A file that holds a mapping
    becomes the local store: a new dict with the file's entries.  A missing
    file and an empty document are the same case: the base constructor is
    run without data. *)
Theorem ConfigFile_init_by_file (k : string -> klass) (fs : filesystem) (h : heap)
    (defn : catalog) (filename : string) (par : option CascadingConfig) :
  match fs !! filename with
  | Some (Raise e) => ConfigFile_init k fs h defn filename par None = (Raise e, h)
  | Some (Ok (Some content)) =>
      h !! fresh (dom h) = None
      /\ if catalogs_resolve defn par
         then exists self,
                ConfigFile_init k fs h defn filename par None
                = (Ok self, <[fresh (dom h) := content]> h)
                /\ cls self = k filename
                /\ parent self = par
                /\ data self = fresh (dom h)
                /\ local_store self = fresh (dom h)
                /\ dict_at (<[fresh (dom h) := content]> h) (local_store self) = content
         else ConfigFile_init k fs h defn filename par None
              = (Raise NameError, <[fresh (dom h) := content]> h)
  | _ =>
      ConfigFile_init k fs h defn filename par None
      = CascadingConfig_init (k filename) h defn None par
  end.
Proof.
  unfold ConfigFile_init, path_exists, _load_file.
  destruct (fs !! filename) as [[[content|]|e]|] eqn:Hfile; try reflexivity.
  split; [apply not_elem_of_dom, is_fresh|].
  unfold alloc_dict.
  pose proof (CascadingConfig_init_outcome (k filename)
                (<[fresh (dom h) := content]> h) defn (Some (fresh (dom h))) par) as Hout.
  destruct (catalogs_resolve defn par); simpl in Hout; [|exact Hout].
  destruct Hout as (self & Hinit & Hdata).
  destruct (CascadingConfig_init_ok _ _ _ _ _ _ _ Hinit)
    as (Hcls & _ & Hpar & Hcfg & _).
  assert (Hlocal : local_store self = fresh (dom h)).
  { unfold local_store. rewrite Hcfg, Hdata. by destruct par. }
  exists self. repeat split; try assumption.
  rewrite Hlocal. unfold dict_at. by rewrite lookup_insert_eq.
Qed.

Lemma alloc_then_update (h : heap) (content : gmap string value) (l l' : loc)
    (key : string) :
  dict_at (dict_update (<[fresh (dom h) := content]> h) l (fresh (dom h))) l' !! key =
  if decide (l' = l)
  then match content !! key with
       | Some v => Some v
       | None => dict_at h l !! key
       end
  else if decide (l' = fresh (dom h)) then content !! key
  else dict_at h l' !! key.
Proof.
  assert (Hfresh : h !! fresh (dom h) = None) by apply not_elem_of_dom, is_fresh.
  assert (Hnew : dict_at (<[fresh (dom h) := content]> h) (fresh (dom h)) = content).
  { unfold dict_at. by rewrite lookup_insert_eq. }
  assert (Hold : forall l0, l0 <> fresh (dom h) ->
                            dict_at (<[fresh (dom h) := content]> h) l0 = dict_at h l0).
  { intros l0 Hne. unfold dict_at. by rewrite lookup_insert_ne. }
  rewrite dict_update_lookup, Hnew.
  destruct (decide (l' = l)) as [->|Hne].
  - destruct (content !! key) as [v|] eqn:Hc; [reflexivity|].
    destruct (decide (l = fresh (dom h))) as [->|Hne'].
    + rewrite Hnew, Hc. unfold dict_at. by rewrite Hfresh.
    + by rewrite Hold.
  - destruct (decide (l' = fresh (dom h))) as [->|Hne']; [by rewrite Hnew|].
    by rewrite Hold.
Qed.

(** [update_from_file] by what the file is.  A missing file, a file that
    does not parse and an empty document each end in an error and leave
    the heap as it was (the empty document as [TypeError], from
    [update(None)]).  A mapping is merged into the local store, its entries
    overwriting; the dicts that existed before, other than the local store,
    keep their contents. *)
Theorem update_from_file_outcome (fs : filesystem) (h : heap)
    (self : CascadingConfig) (file : string) :
  match fs !! file with
  | None => update_from_file fs h self file = (Raise IOError, h)
  | Some (Raise e) => update_from_file fs h self file = (Raise e, h)
  | Some (Ok None) => update_from_file fs h self file = (Raise TypeError, h)
  | Some (Ok (Some content)) =>
      exists h',
        update_from_file fs h self file = (Ok tt, h')
        /\ (forall key,
              dict_at h' (local_store self) !! key =
              match content !! key with
              | Some v => Some v
              | None => dict_at h (local_store self) !! key
              end)
        /\ (forall l key, l <> local_store self -> is_Some (h !! l) ->
                          dict_at h' l !! key = dict_at h l !! key)
  end.
Proof.
  unfold update_from_file, _load_file.
  destruct (fs !! file) as [[[content|]|e]|]; try reflexivity.
  unfold alloc_dict. eexists; split; [reflexivity|]. rewrite update_local. split.
  - intros key. rewrite alloc_then_update. by rewrite decide_True.
  - intros l key Hne [d Hd]. rewrite alloc_then_update.
    rewrite decide_False by done. destruct (decide (l = fresh (dom h))) as [->|]; [|done].
    assert (Hfresh : h !! fresh (dom h) = None) by apply not_elem_of_dom, is_fresh.
    congruence.
Qed.

(** [from_file] and the [ConfigFile] constructor differ on a missing file
    only: [from_file] raises [IOError] where [ConfigFile] starts from an
    empty store.  On a file that exists both build the same configuration
    (up to the class) in the same heap. *)
Theorem from_file_by_file (fs : filesystem) (h : heap) (defn : catalog)
    (file : string) (par : option CascadingConfig) :
  match fs !! file with
  | None =>
      from_file fs h defn file par = (Raise IOError, h)
      /\ ConfigFile_init (fun _ => KCascadingConfig) fs h defn file par None
         = CascadingConfig_init KCascadingConfig h defn None par
  | Some _ =>
      from_file fs h defn file par
      = ConfigFile_init (fun _ => KCascadingConfig) fs h defn file par None
  end.
Proof.
  unfold from_file, ConfigFile_init, path_exists, _load_file.
  destruct (fs !! file) as [[[content|]|e]|]; try reflexivity.
  by split.
Qed.

(** ** The levels of the legacy wrapper *)

Lemma CascadingConfig_init_new k h defn par c h' :
  CascadingConfig_init k h defn None par = (Ok c, h') -> new_level k defn par h c h'.
Proof.
  intros H. destruct (CascadingConfig_init_ok _ _ _ _ _ _ _ H)
    as (Hcls & Hdef & Hpar & Hcfg & Hdfl & _ & _ & _ & Hdata & Hh).
  repeat split; try assumption. by exists ∅.
Qed.

Lemma ConfigFile_init_new k fs h defn f par c h' :
  ConfigFile_init k fs h defn f par None = (Ok c, h') -> new_level (k f) defn par h c h'.
Proof.
  unfold ConfigFile_init, path_exists, _load_file.
  destruct (fs !! f) as [[[content|]|e]|]; intros H;
    try (by apply CascadingConfig_init_new).
  unfold alloc_dict in H.
  destruct (CascadingConfig_init_ok _ _ _ _ _ _ _ H)
    as (Hcls & Hdef & Hpar & Hcfg & Hdfl & _ & _ & _ & Hdata & Hh).
  repeat split; try assumption. by exists content.
Qed.

Lemma LutrisConfig_init_inv (CONFIG_DIR : string)
    (system_options : list (string * option_def))
    (import_runner :
       string -> result (list (string * option_def) * list (string * option_def)))
    (fs : filesystem) (h : heap) (rs gid lvl : option string)
    (lc : LutrisConfig) (h' : heap) :
  LutrisConfig_init CONFIG_DIR system_options import_runner fs h rs gid lvl = (Ok lc, h') ->
  runner_slug lc = rs /\ _game_config_id lc = gid
  /\ exists ropts gopts sys h1,
       (if truthy rs then import_runner (fmt_s rs) else Ok ([], [])) = Ok (ropts, gopts)
       /\ new_level (KSystemConfig (os_path_join CONFIG_DIR ["system.yml"]))
            (makedef system_options) None h sys h1
       /\ ((level lc = "system" /\ lc_config lc = sys /\ h' = h1)
           \/ (level lc <> "system"
               /\ exists runner h2,
                    new_level
                      (KRunnerConfig
                         (os_path_join CONFIG_DIR ["runners"; fmt_s rs +:+ ".yml"]) rs)
                      (makedef ropts) (Some sys) h1 runner h2
                    /\ ((level lc <> "game" /\ lc_config lc = runner /\ h' = h2)
                        \/ (level lc = "game"
                            /\ new_level
                                   (if decide (gid = Some TEMP_CONFIG)
                                    then KTempGameConfig
                                    else KGameConfig
                                           (os_path_join CONFIG_DIR
                                              ["games/" +:+ fmt_s gid +:+ ".yml"]) gid)
                                   (makedef gopts) (Some runner) h2 (lc_config lc) h')))).
Proof.
  unfold LutrisConfig_init.
  set (lvl0 := if truthy lvl then fmt_s lvl
               else if truthy gid then "game"
               else if truthy rs then "runner" else "system").
  destruct (if truthy rs then import_runner (fmt_s rs) else Ok ([], []))
    as [[ropts gopts]|e] eqn:Hopts; [|intros H; discriminate H].
  destruct (SystemConfig_init CONFIG_DIR system_options fs h) as [[sys|e] h1] eqn:Hsys;
    [|intros H; discriminate H].
  apply ConfigFile_init_new in Hsys.
  destruct (decide (lvl0 = "system")) as [Hlvl|Hlvl].
  { intros H. injection H as <- <-. simpl. repeat split.
    exists ropts, gopts, sys, h1. split; [reflexivity|]. split; [exact Hsys|]. by left. }
  destruct (RunnerConfig_init CONFIG_DIR fs h1 rs ropts (Some sys))
    as [[runner|e] h2] eqn:Hrun; [|intros H; discriminate H].
  apply ConfigFile_init_new in Hrun.
  destruct (decide (lvl0 = "game")) as [Hgame|Hgame].
  - destruct (decide (gid = Some TEMP_CONFIG)) as [Htemp|Htemp].
    + destruct (TempGameConfig_init h2 gopts (Some runner)) as [[game|e] h3] eqn:Hg;
        [|intros H; discriminate H].
      apply CascadingConfig_init_new in Hg.
      intros H. injection H as <- <-. simpl. repeat split.
      exists ropts, gopts, sys, h1. split; [reflexivity|]. split; [exact Hsys|].
      right. split; [exact Hlvl|].
      exists runner, h2. split; [exact Hrun|]. right. by split.
    + destruct (GameConfig_init CONFIG_DIR fs h2 gid (Some gopts) (Some runner) None None)
        as [[game|e] h3] eqn:Hg; [|intros H; discriminate H].
      apply ConfigFile_init_new in Hg.
      intros H. injection H as <- <-. simpl. repeat split.
      exists ropts, gopts, sys, h1. split; [reflexivity|]. split; [exact Hsys|].
      right. split; [exact Hlvl|].
      exists runner, h2. split; [exact Hrun|]. right. by split.
  - intros H. injection H as <- <-. simpl. repeat split.
    exists ropts, gopts, sys, h1. split; [reflexivity|]. split; [exact Hsys|].
    right. split; [exact Hlvl|].
    exists runner, h2. split; [exact Hrun|]. by left.
Qed.

Lemma chain_root_unfold (c : CascadingConfig) :
  chain_root c = match parent c with Some p => chain_root p | None => c end.
Proof. by destruct c. Qed.

Lemma ancestors_unfold (c : CascadingConfig) :
  ancestors c = match parent c with Some p => p :: ancestors p | None => [] end.
Proof. by destruct c. Qed.

Lemma cascade_shaped_unfold (c : CascadingConfig) :
  cascade_shaped c <->
  config c = cascade (local_store c) (parent c)
  /\ match parent c with Some p => cascade_shaped p | None => True end.
Proof. by destruct c. Qed.

Lemma new_level_store k defn par h c h' :
  new_level k defn par h c h' ->
  local_store c = data c
  /\ config c = cascade (local_store c) (parent c)
  /\ h !! data c = None
  /\ is_Some (h' !! data c)
  /\ (forall l, l <> data c -> h' !! l = h !! l).
Proof.
  intros (_ & _ & Hpar & Hcfg & Hdata & _ & content & ->).
  assert (Hlocal : local_store c = data c).
  { unfold local_store. rewrite Hcfg. by destruct par. }
  rewrite Hlocal, Hpar, Hdata. repeat split.
  - by rewrite Hcfg, Hdata.
  - apply not_elem_of_dom, is_fresh.
  - rewrite lookup_insert_eq. by eexists.
  - intros l Hne. by rewrite lookup_insert_ne.
Qed.

Lemma get_level_system (lc : LutrisConfig) :
  get_level lc "system" = Ok (Level (system_level lc)).
Proof. reflexivity. Qed.

Lemma get_level_runner (lc : LutrisConfig) :
  get_level lc "runner" =
  match runner_level lc with Ok c => Ok (Level c) | Raise e => Raise e end.
Proof. reflexivity. Qed.

Lemma get_level_game (lc : LutrisConfig) :
  get_level lc "game" =
  match game_level lc with Ok c => Ok (Level c) | Raise e => Raise e end.
Proof. reflexivity. Qed.

(** The levels a wrapper is built with.  The system level is always there
    and is the root; every level other than ["system"] has a runner level
    over the file of the runner slug, with the system level as parent;
    level ["game"] has a game level on top, temporary exactly when the
    identifier is the temporary marker.  [get_level] answers for the levels
    that were built and raises [AttributeError] for the others. *)
Theorem LutrisConfig_init_levels (CONFIG_DIR : string)
    (system_options : list (string * option_def))
    (import_runner :
       string -> result (list (string * option_def) * list (string * option_def)))
    (fs : filesystem) (h : heap) (rs gid lvl : option string)
    (lc : LutrisConfig) (h' : heap) :
  LutrisConfig_init CONFIG_DIR system_options import_runner fs h rs gid lvl = (Ok lc, h') ->
  exists sys,
    get_level lc "system" = Ok (Level sys)
    /\ cls sys = KSystemConfig (os_path_join CONFIG_DIR ["system.yml"])
    /\ definition sys = makedef system_options
    /\ parent sys = None
    /\ if decide (level lc = "system")
       then lc_config lc = sys
            /\ get_level lc "runner" = Raise AttributeError
            /\ get_level lc "game" = Raise AttributeError
       else exists runner,
              get_level lc "runner" = Ok (Level runner)
              /\ cls runner =
                   KRunnerConfig
                     (os_path_join CONFIG_DIR ["runners"; fmt_s rs +:+ ".yml"]) rs
              /\ parent runner = Some sys
              /\ if decide (level lc = "game")
                 then exists game,
                        get_level lc "game" = Ok (Level game)
                        /\ lc_config lc = game
                        /\ parent game = Some runner
                        /\ cls game =
                             (if decide (gid = Some TEMP_CONFIG)
                              then KTempGameConfig
                              else KGameConfig
                                     (os_path_join CONFIG_DIR
                                        ["games/" +:+ fmt_s gid +:+ ".yml"]) gid)
                 else lc_config lc = runner
                      /\ get_level lc "game" = Raise AttributeError.
Proof.
  intros H. apply LutrisConfig_init_inv in H.
  destruct H as (_ & _ & ropts & gopts & sys & h1 & _ & (Hcls & Hdef & Hpar & _) & Hrest).
  assert (Hroot : chain_root sys = sys) by (by rewrite chain_root_unfold, Hpar).
  exists sys. rewrite get_level_system, get_level_runner, get_level_game.
  unfold system_level, runner_level, game_level.
  destruct Hrest as [(Hlvl & Hcfg & _) | (Hlvl & runner & h2 & Hrun & Hrest)].
  - rewrite Hcfg, Hroot, Hlvl. simpl. by repeat split.
  - destruct Hrun as (Hrcls & _ & Hrpar & _).
    destruct (decide (level lc = "system")) as [|_]; [done|].
    destruct Hrest as [(Hgame & Hcfg & _) | (Hgame & Hgcls & _ & Hgpar & _)].
    + rewrite Hcfg, chain_root_unfold, Hrpar, Hroot.
      destruct (decide (level lc = "game")) as [|_]; [done|].
      repeat split; try assumption. exists runner. by repeat split.
    + rewrite (chain_root_unfold (lc_config lc)), Hgpar, chain_root_unfold, Hrpar, Hroot.
      destruct (decide (level lc = "game")) as [_|]; [|done].
      repeat split; try assumption. exists runner. repeat split; try assumption.
      exists (lc_config lc). by repeat split.
Qed.

(** Every level of a wrapper that was built reads and writes a dict object
    of its own: the chain has the shape [cascade] gives, each level's local
    store is its [data], these dicts are pairwise distinct and new, and the
    dicts that existed before are as they were. *)
Theorem LutrisConfig_init_stores (CONFIG_DIR : string)
    (system_options : list (string * option_def))
    (import_runner :
       string -> result (list (string * option_def) * list (string * option_def)))
    (fs : filesystem) (h : heap) (rs gid lvl : option string)
    (lc : LutrisConfig) (h' : heap) :
  LutrisConfig_init CONFIG_DIR system_options import_runner fs h rs gid lvl = (Ok lc, h') ->
  cascade_shaped (lc_config lc)
  /\ NoDup (map local_store (levels lc))
  /\ Forall (fun c => local_store c = data c
                      /\ h !! data c = None
                      /\ is_Some (h' !! data c)) (levels lc)
  /\ (forall l, is_Some (h !! l) -> h' !! l = h !! l).
Proof.
  intros H. apply LutrisConfig_init_inv in H.
  destruct H as (_ & _ & ropts & gopts & sys & h1 & _ & Hsys & Hrest).
  pose proof Hsys as (_ & _ & Hpar & _).
  apply new_level_store in Hsys.
  destruct Hsys as (Hsl & Hscfg & Hsnew & Hsin & Hsold).
  assert (Hsshape : cascade_shaped sys).
  { apply cascade_shaped_unfold. by rewrite Hpar in *. }
  assert (Hsanc : ancestors sys = []) by (by rewrite ancestors_unfold, Hpar).
  unfold levels.
  destruct Hrest as [(_ & -> & ->) | (_ & runner & h2 & Hrun & Hrest)].
  { rewrite Hsanc. simpl. repeat split; try assumption.
    - apply NoDup_singleton.
    - by repeat constructor.
    - intros l [d Hl]. apply Hsold. congruence. }
  pose proof Hrun as (_ & _ & Hrpar & _).
  apply new_level_store in Hrun.
  destruct Hrun as (Hrl & Hrcfg & Hrnew & Hrin & Hrold).
  assert (Hne1 : data runner <> data sys).
  { intros Heq. rewrite Heq in Hrnew. destruct Hsin as [d Hd]. congruence. }
  assert (Hrshape : cascade_shaped runner).
  { apply cascade_shaped_unfold. by rewrite Hrpar in *. }
  assert (Hranc : ancestors runner = [sys])
    by (by rewrite ancestors_unfold, Hrpar, Hsanc).
  destruct Hrest as [(_ & -> & ->) | (_ & Hgame)].
  { rewrite Hranc. simpl. rewrite Hrl, Hsl. repeat split; try assumption.
    - apply NoDup_cons. split; [|apply NoDup_singleton].
      by apply not_elem_of_cons; split; [|apply not_elem_of_nil].
    - repeat constructor; try assumption.
      + rewrite <- (Hsold _ Hne1). exact Hrnew.
      + rewrite Hrold by done. exact Hsin.
    - intros l [d Hl]. rewrite Hrold, Hsold; [done | congruence |].
      intros ->. rewrite Hsold in Hrnew by done. congruence. }
  pose proof Hgame as (_ & _ & Hgpar & _).
  apply new_level_store in Hgame.
  destruct Hgame as (Hgl & Hgcfg & Hgnew & Hgin & Hgold).
  assert (Hne2 : data (lc_config lc) <> data runner).
  { intros Heq. rewrite Heq in Hgnew. destruct Hrin as [d Hd]. congruence. }
  assert (Hne3 : data (lc_config lc) <> data sys).
  { intros Heq. rewrite Heq, Hrold in Hgnew by done. destruct Hsin as [d Hd]. congruence. }
  rewrite (ancestors_unfold (lc_config lc)), Hgpar, Hranc. simpl.
  rewrite Hgl, Hrl, Hsl. repeat split; try assumption.
  - apply cascade_shaped_unfold. by rewrite Hgpar in *.
  - apply NoDup_cons. split.
    { apply not_elem_of_cons; split; [done|].
      by apply not_elem_of_cons; split; [|apply not_elem_of_nil]. }
    apply NoDup_cons. split; [|apply NoDup_singleton].
    by apply not_elem_of_cons; split; [|apply not_elem_of_nil].
  - repeat constructor; try assumption.
    + rewrite <- (Hsold _ Hne3), <- (Hrold _ Hne2). exact Hgnew.
    + rewrite <- (Hsold _ Hne1). exact Hrnew.
    + rewrite Hgold by done. exact Hrin.
    + rewrite Hgold, Hrold by done. exact Hsin.
  - intros l [d Hl].
    assert (l <> data sys) by congruence.
    assert (l <> data runner) by (intros ->; rewrite Hsold in Hrnew by done; congruence).
    assert (l <> data (lc_config lc)).
    { intros ->. rewrite Hrold, Hsold in Hgnew by done. congruence. }
    by rewrite Hgold, Hrold, Hsold.
Qed.

Lemma ex_saved_built :
  LutrisConfig_init "/cfg" [("resolution", defaulted (VStr "native"))]
    ex_runner_options ex_files ∅ (Some "wine") (Some "quake") None
  = (Ok (built_wrapper ex_saved), snd ex_saved).
Proof. vm_compute. reflexivity. Qed.

Lemma LutrisConfig_init_levels_witness :
  exists sys runner game,
    get_level (built_wrapper ex_saved) "system" = Ok (Level sys)
    /\ get_level (built_wrapper ex_saved) "runner" = Ok (Level runner)
    /\ get_level (built_wrapper ex_saved) "game" = Ok (Level game)
    /\ cls sys = KSystemConfig "/cfg/system.yml"
    /\ cls runner = KRunnerConfig "/cfg/runners/wine.yml" (Some "wine")
    /\ cls game = KGameConfig "/cfg/games/quake.yml" (Some "quake").
Proof.
  destruct (LutrisConfig_init_levels _ _ _ _ _ _ _ _ _ _ ex_saved_built)
    as (sys & Hsys & Hscls & _ & _ & Hrest).
  destruct (decide (level (built_wrapper ex_saved) = "system")) as [Hl|_];
    [vm_compute in Hl; discriminate Hl|].
  destruct Hrest as (runner & Hrun & Hrcls & _ & Hrest).
  destruct (decide (level (built_wrapper ex_saved) = "game")) as [_|Hl];
    [|exfalso; apply Hl; vm_compute; reflexivity].
  destruct Hrest as (game & Hgame & _ & _ & Hgcls).
  exists sys, runner, game. repeat split; assumption.
Defined.

Lemma LutrisConfig_init_stores_witness :
  NoDup (map local_store (levels (built_wrapper ex_saved)))
  /\ map local_store (levels (built_wrapper ex_saved)) = [3; 2; 1]%positive.
Proof.
  split; [|vm_compute; reflexivity].
  apply (LutrisConfig_init_stores _ _ _ _ _ _ _ _ _ _ ex_saved_built).
Defined.

(** ** Identifiers, paths and removal *)

Lemma build_definition_cache_congr {A : Type} (name : option_def -> option A)
    (c c' : CascadingConfig) :
  definition c' = definition c -> parent c' = parent c ->
  build_definition_cache name c' = build_definition_cache name c.
Proof. destruct c, c'; simpl. by intros -> ->. Qed.

Lemma build_getter_cache_congr (c c' : CascadingConfig) :
  definition c' = definition c -> parent c' = parent c ->
  build_getter_cache c' = build_getter_cache c.
Proof. destruct c, c'; simpl. by intros -> ->. Qed.

Lemma plain_key_unfold (c : CascadingConfig) (key : string) :
  plain_key c key <->
  getter_cache c !! key = None
  /\ match parent c with Some p => plain_key p key | None => True end.
Proof. by destruct c. Qed.

(** The game level that [assign_id] returns reads a key as the temporary
    one does, in every heap: it is built over the same dict object, parent
    and definition, and no file is read for it.  So what was set before the
    promotion is read after it, and a value set through either object is
    read through the other. *)
Theorem assign_id_keeps_reads (CONFIG_DIR : string) (env : callbacks)
    (fs : filesystem) (h h' : heap) (self game : CascadingConfig)
    (id : option string) (key : string) :
  assign_id CONFIG_DIR fs h self id = (Ok game, h') ->
  defaults self = build_definition_cache opt_default self ->
  build_getter_cache self = Ok (getter_cache self) ->
  cascade_shaped self -> local_store self = data self -> plain_key self key ->
  h' = h
  /\ local_store game = local_store self
  /\ forall h0, fst (fst (getitem env h0 game key)) = fst (fst (getitem env h0 self key)).
Proof.
  intros Hassign Hdefaults Hgetters Hshape Hlocal Hplain.
  unfold assign_id in Hassign.
  destruct (cls self); try discriminate Hassign.
  unfold GameConfig_init, ConfigFile_init in Hassign.
  destruct (CascadingConfig_init_ok _ _ _ _ _ _ _ Hassign)
    as (_ & Hdef & Hpar & Hcfg & Hgd & _ & Hgg & _ & Hdata & ->).
  assert (Hgl : local_store game = local_store self).
  { unfold local_store at 1. rewrite Hcfg, Hdata, Hlocal.
    by destruct (parent self). }
  assert (Hgetter : getter_cache game = getter_cache self).
  { rewrite (build_getter_cache_congr self game Hdef Hpar), Hgetters in Hgg.
    congruence. }
  assert (Hdflt : defaults game = defaults self).
  { by rewrite Hgd, Hdefaults, (build_definition_cache_congr _ self game Hdef Hpar). }
  apply cascade_shaped_unfold in Hshape. destruct Hshape as [Hscfg Hsrest].
  apply plain_key_unfold in Hplain. destruct Hplain as [Hsget Hsplain].
  assert (Hgshape : cascade_shaped game).
  { apply cascade_shaped_unfold. rewrite Hpar. split; [|exact Hsrest].
    by rewrite Hgl, Hlocal, Hcfg, Hdata. }
  assert (Hgplain : plain_key game key).
  { apply plain_key_unfold. rewrite Hpar, Hgetter. by split. }
  assert (Hsshape : cascade_shaped self) by (by apply cascade_shaped_unfold).
  assert (Hsp : plain_key self key) by (by apply plain_key_unfold).
  repeat split; try assumption.
  intros h0.
  rewrite (getitem_cascaded env h0 game key Hgshape Hgplain).
  rewrite (getitem_cascaded env h0 self key Hsshape Hsp).
  cbn [fst]. unfold cascaded.
  rewrite (nearest_local_unfold h0 game), (nearest_local_unfold h0 self).
  rewrite (rootmost_default_unfold game), (rootmost_default_unfold self).
  by rewrite Hgl, Hpar, Hdflt.
Qed.

Lemma assign_id_keeps_reads_witness :
  fst (assign_id "/cfg" no_files ex_temp_heap (lc_config (built_wrapper ex_temp))
         (Some "halflife2-173"))
  = Ok (built (assign_id "/cfg" no_files ex_temp_heap (lc_config (built_wrapper ex_temp))
                 (Some "halflife2-173")))
  /\ fst (fst (getitem ex_env ex_temp_heap
                 (built (assign_id "/cfg" no_files ex_temp_heap
                           (lc_config (built_wrapper ex_temp)) (Some "halflife2-173")))
                 "exe"))
     = Ok (VStr "hl2.exe").
Proof.
  split; [vm_compute; reflexivity|].
  destruct (assign_id_keeps_reads "/cfg" ex_env no_files ex_temp_heap ex_temp_heap
              (lc_config (built_wrapper ex_temp))
              (built (assign_id "/cfg" no_files ex_temp_heap
                        (lc_config (built_wrapper ex_temp)) (Some "halflife2-173")))
              (Some "halflife2-173") "exe"
              ltac:(vm_compute; reflexivity) ltac:(vm_compute; reflexivity)
              ltac:(vm_compute; reflexivity) ltac:(vm_compute; repeat split)
              ltac:(vm_compute; reflexivity) ltac:(vm_compute; repeat split))
    as (_ & _ & Hreads).
  rewrite Hreads. vm_compute. reflexivity.
Defined.

Lemma level_paths_built (CONFIG_DIR : string)
    (system_options : list (string * option_def))
    (import_runner :
       string -> result (list (string * option_def) * list (string * option_def)))
    (fs : filesystem) (h : heap) (rs gid lvl : option string)
    (lc : LutrisConfig) (h' : heap) :
  LutrisConfig_init CONFIG_DIR system_options import_runner fs h rs gid lvl = (Ok lc, h') ->
  runner_slug lc = rs /\ _game_config_id lc = gid
  /\ filename (system_level lc) = Ok (os_path_join CONFIG_DIR ["system.yml"])
  /\ runner_level lc =
       (if decide (level lc = "system") then Raise AttributeError
        else runner_level lc)
  /\ (level lc <> "system" ->
      exists runner,
        runner_level lc = Ok runner
        /\ filename runner
           = Ok (os_path_join CONFIG_DIR ["runners"; fmt_s rs +:+ ".yml"]))
  /\ game_level lc =
       (if decide (level lc = "game") then Ok (lc_config lc) else Raise AttributeError)
  /\ (level lc = "game" -> gid <> Some TEMP_CONFIG ->
      filename (lc_config lc)
      = Ok (os_path_join CONFIG_DIR ["games/" +:+ fmt_s gid +:+ ".yml"])).
Proof.
  intros H. apply LutrisConfig_init_inv in H.
  destruct H as (Hrs & Hgid & ropts & gopts & sys & h1 & _ & (Hcls & _ & Hpar & _) & Hrest).
  assert (Hroot : chain_root sys = sys) by (by rewrite chain_root_unfold, Hpar).
  assert (Hsysfile : filename sys = Ok (os_path_join CONFIG_DIR ["system.yml"]))
    by (unfold filename; by rewrite Hcls).
  unfold system_level, runner_level, game_level.
  split; [exact Hrs|]. split; [exact Hgid|].
  destruct Hrest as [(Hlvl & Hcfg & _) | (Hlvl & runner & h2 & Hrun & Hrest)].
  - rewrite Hcfg, Hroot, Hlvl. simpl. repeat split; try done.
  - destruct Hrun as (Hrcls & _ & Hrpar & _).
    assert (Hrfile : filename runner
                     = Ok (os_path_join CONFIG_DIR ["runners"; fmt_s rs +:+ ".yml"]))
      by (unfold filename; by rewrite Hrcls).
    destruct (decide (level lc = "system")) as [|_]; [done|].
    destruct Hrest as [(Hgame & Hcfg & _) | (Hgame & Hgcls & _ & Hgpar & _)].
    + rewrite Hcfg, chain_root_unfold, Hrpar, Hroot.
      destruct (decide (level lc = "game")) as [|_]; [done|].
      repeat split; try done. intros _. by exists runner.
    + rewrite (chain_root_unfold (lc_config lc)), Hgpar, chain_root_unfold, Hrpar, Hroot.
      destruct (decide (level lc = "game")) as [_|]; [|done].
      repeat split; try done.
      * intros _. by exists runner.
      * intros _ Htemp. unfold filename. rewrite Hgcls.
        by destruct (decide (gid = Some TEMP_CONFIG)).
Qed.

(** The three path properties of a wrapper that was built.  The system
    path is always the system file.  The runner path is [None] without a
    runner slug; with one it is the runner's file, except at level
    ["system"], where no runner level exists and the property raises
    [AttributeError].  The game path is [None] without identifier and
    for the temporary marker; otherwise it is the game's file at level
    ["game"] and an [AttributeError] at every other level. *)
Theorem config_paths_built (CONFIG_DIR : string)
    (system_options : list (string * option_def))
    (import_runner :
       string -> result (list (string * option_def) * list (string * option_def)))
    (fs : filesystem) (h : heap) (rs gid lvl : option string)
    (lc : LutrisConfig) (h' : heap) :
  LutrisConfig_init CONFIG_DIR system_options import_runner fs h rs gid lvl = (Ok lc, h') ->
  system_config_path lc = Ok (os_path_join CONFIG_DIR ["system.yml"])
  /\ runner_config_path lc =
       (if truthy rs
        then if decide (level lc = "system") then Raise AttributeError
             else Ok (Some (os_path_join CONFIG_DIR ["runners"; fmt_s rs +:+ ".yml"]))
        else Ok None)
  /\ game_config_path lc =
       (if negb (truthy gid) || bool_decide (gid = Some TEMP_CONFIG) then Ok None
        else if decide (level lc = "game")
             then Ok (Some (os_path_join CONFIG_DIR ["games/" +:+ fmt_s gid +:+ ".yml"]))
             else Raise AttributeError).
Proof.
  intros H. apply level_paths_built in H.
  destruct H as (Hrs & Hgid & Hsys & Hrl & Hrun & Hgl & Hgame).
  unfold system_config_path, runner_config_path, game_config_path.
  rewrite Hrs, Hgid, Hgl. split; [exact Hsys|]. split.
  - destruct (truthy rs); [|reflexivity]. rewrite Hrl.
    destruct (decide (level lc = "system")) as [|Hne]; [reflexivity|].
    destruct (Hrun Hne) as (runner & -> & ->). reflexivity.
  - destruct (truthy gid); simpl; [|reflexivity].
    destruct (bool_decide_reflect (gid = Some TEMP_CONFIG)) as [|Hne]; [reflexivity|].
    destruct (decide (level lc = "game")) as [Hl|]; [|reflexivity].
    by rewrite (Hgame Hl Hne).
Qed.

Lemma config_paths_built_witness :
  system_config_path (built_wrapper ex_saved) = Ok "/cfg/system.yml"
  /\ runner_config_path (built_wrapper ex_saved) = Ok (Some "/cfg/runners/wine.yml")
  /\ game_config_path (built_wrapper ex_saved) = Ok (Some "/cfg/games/quake.yml")
  /\ game_config_path (built_wrapper ex_temp) = Ok None.
Proof.
  destruct (config_paths_built _ _ _ _ _ _ _ _ _ _ ex_saved_built)
    as (Hsys & Hrun & Hgame).
  rewrite Hsys, Hrun, Hgame. vm_compute. repeat split.
Defined.

Lemma game_path_nonempty (CONFIG_DIR s : string) :
  os_path_join CONFIG_DIR ["games/" +:+ s] <> "".
Proof.
  unfold os_path_join. simpl. unfold path_join_step. simpl.
  destruct (bool_decide (CONFIG_DIR = "") || ends_with_slash CONFIG_DIR);
    by destruct CONFIG_DIR.
Qed.

(** [remove] on a wrapper that was built.  Without identifier and for the
    temporary marker it does nothing.  At level ["game"] it deletes the
    game's file and no other; a file that is not there is no error.  A
    wrapper with an identifier that was built at another level has no game
    level, and [remove] raises [AttributeError]. *)
Theorem remove_built (CONFIG_DIR : string)
    (system_options : list (string * option_def))
    (import_runner :
       string -> result (list (string * option_def) * list (string * option_def)))
    (fs0 : filesystem) (h : heap) (rs gid lvl : option string)
    (lc : LutrisConfig) (h' : heap) (fs : filesystem) :
  LutrisConfig_init CONFIG_DIR system_options import_runner fs0 h rs gid lvl = (Ok lc, h') ->
  LutrisConfig_remove fs lc =
  if negb (truthy gid) || bool_decide (gid = Some TEMP_CONFIG) then (Ok tt, fs)
  else if decide (level lc = "game")
       then (Ok tt, delete (os_path_join CONFIG_DIR ["games/" +:+ fmt_s gid +:+ ".yml"]) fs)
       else (Raise AttributeError, fs).
Proof.
  intros H. apply level_paths_built in H.
  destruct H as (_ & Hgid & _ & _ & _ & Hgl & Hgame).
  unfold LutrisConfig_remove, game_config_path. rewrite Hgid, Hgl.
  destruct (truthy gid); simpl; [|reflexivity].
  destruct (bool_decide_reflect (gid = Some TEMP_CONFIG)) as [|Hne]; [reflexivity|].
  destruct (decide (level lc = "game")) as [Hl|]; [|reflexivity].
  rewrite (Hgame Hl Hne).
  rewrite (bool_decide_eq_false_2 _ (game_path_nonempty CONFIG_DIR (fmt_s gid +:+ ".yml"))).
  simpl. unfold path_exists.
  destruct (fs !! _) eqn:Hfile; [reflexivity|]. by rewrite delete_id.
Qed.

Lemma remove_built_witness :
  LutrisConfig_remove ex_files (built_wrapper ex_saved)
  = (Ok tt, {[ "/cfg/system.yml" := Ok (Some {[ "resolution" := VStr "800x600" ]}) ]}).
Proof.
  rewrite (remove_built _ _ _ _ _ _ _ _ _ _ ex_files ex_saved_built).
  vm_compute. reflexivity.
Defined.

(** ** Defaults and catalogs of the levels *)

Lemma level_defaults (c : CascadingConfig) (opts : list (string * option_def))
    (key : string) :
  definition c = makedef opts ->
  defaults c = build_definition_cache opt_default c ->
  defaults c !! key =
  match option_default opts key with
  | Some x => Some x
  | None =>
      match parent c with
      | Some p => most_specific opt_default p key
      | None => None
      end
  end.
Proof.
  intros Hdef ->. rewrite build_definition_cache_lookup, most_specific_unfold, Hdef.
  rewrite (last_entry_od_get opt_default _ key (makedef_NoDup opts)), od_get_makedef.
  reflexivity.
Qed.

(** [get_defaults] and [options_as_dict] on a wrapper that was built.  The
    catalog of a level is [makedef] of that level's options alone; the
    defaults of a level are cumulative: for each key the default of the
    most specific level, up to the one asked for, whose option of that name
    has one.  So [get_defaults("runner")] holds the system defaults too,
    where the runner options do not redefine them. *)
Theorem get_defaults_built (CONFIG_DIR : string)
    (system_options : list (string * option_def))
    (import_runner :
       string -> result (list (string * option_def) * list (string * option_def)))
    (fs : filesystem) (h : heap) (rs gid lvl : option string)
    (lc : LutrisConfig) (h' : heap) :
  LutrisConfig_init CONFIG_DIR system_options import_runner fs h rs gid lvl = (Ok lc, h') ->
  exists ropts gopts,
    (if truthy rs then import_runner (fmt_s rs) else Ok ([], [])) = Ok (ropts, gopts)
    /\ options_as_dict lc "system" = Ok (makedef system_options)
    /\ (exists d, get_defaults lc "system" = Ok d
                  /\ forall key, d !! key = option_default system_options key)
    /\ (level lc <> "system" ->
        options_as_dict lc "runner" = Ok (makedef ropts)
        /\ exists d, get_defaults lc "runner" = Ok d
                     /\ forall key,
                          d !! key =
                          match option_default ropts key with
                          | Some x => Some x
                          | None => option_default system_options key
                          end)
    /\ (level lc = "game" ->
        options_as_dict lc "game" = Ok (makedef gopts)
        /\ exists d, get_defaults lc "game" = Ok d
                     /\ forall key,
                          d !! key =
                          match option_default gopts key with
                          | Some x => Some x
                          | None =>
                              match option_default ropts key with
                              | Some x => Some x
                              | None => option_default system_options key
                              end
                          end).
Proof.
  intros H. apply LutrisConfig_init_inv in H.
  destruct H as (_ & _ & ropts & gopts & sys & h1 & Hopts & Hsys & Hrest).
  destruct Hsys as (_ & Hsdef & Hspar & _ & _ & Hsdfl & _).
  assert (Hroot : chain_root sys = sys) by (by rewrite chain_root_unfold, Hspar).
  assert (Hsd : forall key, defaults sys !! key = option_default system_options key).
  { intros key. rewrite (level_defaults sys system_options key Hsdef Hsdfl), Hspar.
    by destruct (option_default system_options key). }
  assert (Hsm : forall key, most_specific opt_default sys key
                            = option_default system_options key).
  { intros key. by rewrite <- build_definition_cache_lookup, <- Hsdfl. }
  exists ropts, gopts. split; [exact Hopts|].
  unfold get_defaults, options_as_dict.
  rewrite get_level_system, get_level_runner, get_level_game.
  unfold system_level, runner_level, game_level.
  destruct Hrest as [(Hlvl & Hcfg & _) | (Hlvl & runner & h2 & Hrun & Hrest)].
  { rewrite Hcfg, Hroot, Hsdef, Hlvl. split; [reflexivity|].
    split; [by exists (defaults sys)|]. split; [done|]. intros Hl; discriminate Hl. }
  destruct Hrun as (_ & Hrdef & Hrpar & _ & _ & Hrdfl & _).
  assert (Hrd : forall key, defaults runner !! key =
                            match option_default ropts key with
                            | Some x => Some x
                            | None => option_default system_options key
                            end).
  { intros key. by rewrite (level_defaults runner ropts key Hrdef Hrdfl), Hrpar, Hsm. }
  destruct (decide (level lc = "system")) as [|_]; [done|].
  destruct Hrest as [(Hgame & Hcfg & _) | (Hgame & _ & Hgdef & Hgpar & _ & _ & Hgdfl & _)].
  { rewrite Hcfg, chain_root_unfold, Hrpar, Hroot, Hsdef.
    destruct (decide (level lc = "game")) as [|_]; [done|]. rewrite Hrdef.
    split; [reflexivity|]. split; [by exists (defaults sys)|].
    split; [|done]. intros _. split; [reflexivity|]. by exists (defaults runner). }
  rewrite (chain_root_unfold (lc_config lc)), Hgpar, chain_root_unfold, Hrpar, Hroot.
  destruct (decide (level lc = "game")) as [_|]; [|done].
  rewrite Hsdef, Hrdef, Hgdef.
  split; [reflexivity|]. split; [by exists (defaults sys)|].
  split; [intros _; split; [reflexivity|]; by exists (defaults runner)|].
  intros _. split; [reflexivity|]. exists (defaults (lc_config lc)).
  split; [reflexivity|]. intros key.
  rewrite (level_defaults (lc_config lc) gopts key Hgdef Hgdfl), Hgpar.
  by rewrite <- build_definition_cache_lookup, <- Hrdfl, Hrd.
Qed.

Lemma get_defaults_built_witness :
  exists d, get_defaults (built_wrapper ex_saved) "game" = Ok d
            /\ d !! "resolution" = Some (VStr "native").
Proof.
  destruct (get_defaults_built _ _ _ _ _ _ _ _ _ _ ex_saved_built)
    as (ropts & gopts & Hopts & _ & _ & _ & Hgame).
  destruct (Hgame ltac:(vm_compute; reflexivity)) as (_ & d & Hd & Hkey).
  exists d. split; [exact Hd|]. rewrite Hkey.
  vm_compute in Hopts. injection Hopts as <- <-. vm_compute. reflexivity.
Defined.

(** ** Levels above a write *)

Lemma nearest_local_agree (h h' : heap) (c : CascadingConfig) (key : string) :
  Forall (fun a => dict_at h' (local_store a) = dict_at h (local_store a))
         (c :: ancestors c) ->
  nearest_local h' c key = nearest_local h c key.
Proof.
  induction c as [c Hroot | c p Hp IH] using chain_ind; intros Hall;
    rewrite (nearest_local_unfold h'), (nearest_local_unfold h);
    rewrite ancestors_unfold in Hall;
    inversion Hall as [|? ? Hc Hrest]; subst; rewrite Hc.
  - by rewrite Hroot.
  - rewrite Hp in *. by rewrite (IH Hrest).
Qed.

Lemma reads_above_agree (env : callbacks) (h h' : heap) (self p : CascadingConfig)
    (key : string) :
  cascade_shaped p -> plain_key p key ->
  local_store self ∉ map local_store (p :: ancestors p) ->
  (forall l, l <> local_store self -> dict_at h' l = dict_at h l) ->
  fst (fst (getitem env h' p key)) = fst (fst (getitem env h p key)).
Proof.
  intros Hshape Hplain Hnotin Hsame.
  rewrite !(getitem_cascaded env _ p key Hshape Hplain). cbn [fst]. unfold cascaded.
  rewrite (nearest_local_agree h h'); [reflexivity|].
  apply Forall_forall. intros a Ha. apply Hsame. intros Heq.
  apply Hnotin. rewrite <- Heq. by apply list_elem_of_fmap_2.
Qed.

(** What a level reads is not changed by a write below it.  Let [p] be a
    configuration, such as the parent of [self], none of whose levels has
    the local store of [self] as its local store.  After an assignment, a
    deletion or an [update] at [self], [p] reads every key it reads through
    the cascade as before. *)
Theorem writes_invisible_above (env : callbacks) (h : heap)
    (self p : CascadingConfig) (key' : string) :
  cascade_shaped p -> plain_key p key' ->
  local_store self ∉ map local_store (p :: ancestors p) ->
  (forall key x h', setitem env h self key x = (Ok tt, h') ->
      fst (fst (getitem env h' p key')) = fst (fst (getitem env h p key')))
  /\ (forall key h', delitem h self key = (Ok tt, h') ->
        fst (fst (getitem env h' p key')) = fst (fst (getitem env h p key')))
  /\ (forall other,
        fst (fst (getitem env (update h self other) p key'))
        = fst (fst (getitem env h p key'))).
Proof.
  intros Hshape Hplain Hnotin. repeat split.
  - intros key x h' Hset. apply setitem_ok_heap in Hset. subst h'.
    apply (reads_above_agree env h _ self p key' Hshape Hplain Hnotin).
    intros l Hne. by apply dict_setitem_other.
  - intros key h' Hdel. unfold delitem in Hdel. rewrite view_delitem_local in Hdel.
    unfold dict_delitem in Hdel.
    destruct (dict_at h (local_store self) !! key); [|discriminate Hdel].
    injection Hdel as <-.
    apply (reads_above_agree env h _ self p key' Hshape Hplain Hnotin).
    intros l Hne. unfold dict_at at 1. by rewrite lookup_insert_ne.
  - intros other. rewrite update_local.
    apply (reads_above_agree env h _ self p key' Hshape Hplain Hnotin).
    intros l Hne. unfold dict_update, dict_at at 1. by rewrite lookup_insert_ne.
Qed.

(** The game level of the example overrides [res]; whatever it writes, the
    runner level keeps reading its own value. *)
Lemma writes_invisible_above_witness :
  fst (fst (getitem ex_env
              (snd (setitem ex_env (snd ex_game_res) (built ex_game_res) "res" (VStr "720p")))
              (built ex_runner_res) "res"))
  = Ok (VStr "native").
Proof.
  destruct (writes_invisible_above ex_env (snd ex_game_res) (built ex_game_res)
              (built ex_runner_res) "res"
              ltac:(vm_compute; repeat split)
              ltac:(vm_compute; repeat split)
              ltac:(vm_compute; intros Hin; inversion Hin as [|? ? ? Hin']; inversion Hin'))
    as (Hset & _ & _).
  rewrite (Hset "res" (VStr "720p")
             (snd (setitem ex_env (snd ex_game_res) (built ex_game_res) "res" (VStr "720p")))
             ltac:(vm_compute; reflexivity)).
  vm_compute. reflexivity.
Defined.

(** ** The temporary marker as identifier *)

(** Assigning the temporary marker itself as identifier of a temporary
    game is accepted: the game level becomes a [GameConfig] over the file
    of the marker, while the identifier still is the marker.  The wrapper
    then cannot be given an identifier any more: the setter calls
    [assign_id] on the game level, which [GameConfig] does not define, so
    every later assignment raises [AttributeError] and changes nothing. *)
Theorem promotion_to_marker (CONFIG_DIR : string) (fs : filesystem) (h : heap)
    (self : LutrisConfig) :
  _game_config_id self = Some TEMP_CONFIG ->
  level self = "game" ->
  cls (lc_config self) = KTempGameConfig ->
  build_getter_cache (lc_config self) = Ok (getter_cache (lc_config self)) ->
  exists self',
    set_game_config_id CONFIG_DIR fs h self (Some TEMP_CONFIG) = (Ok tt, h, self')
    /\ _game_config_id self' = Some TEMP_CONFIG
    /\ cls (lc_config self') =
         KGameConfig (os_path_join CONFIG_DIR ["games/TEMP_CONFIG.yml"]) (Some TEMP_CONFIG)
    /\ game_config_path self' = Ok None
    /\ (forall fs' h' value',
          set_game_config_id CONFIG_DIR fs' h' self' value'
          = (Raise AttributeError, h', self')).
Proof.
  intros Hid Hlevel Hcls Hcache.
  assert (Hres : catalogs_resolve (definition (lc_config self))
                   (parent (lc_config self)) = true).
  { rewrite <- chain_resolves_unfold. rewrite build_getter_cache_spec in Hcache.
    by destruct (chain_resolves (lc_config self)). }
  pose proof (CascadingConfig_init_outcome
                (KGameConfig (os_path_join CONFIG_DIR ["games/TEMP_CONFIG.yml"])
                   (Some TEMP_CONFIG))
                h (definition (lc_config self)) (Some (data (lc_config self)))
                (parent (lc_config self))) as Hinit.
  rewrite Hres in Hinit. destruct Hinit as (game & Hinit & Hdata).
  cbn [init_store fst snd] in Hinit, Hdata.
  destruct (CascadingConfig_init_ok _ _ _ _ _ _ _ Hinit) as (Hk & _).
  exists (mkLutrisConfig (Some TEMP_CONFIG) (runner_slug self) (level self) game).
  split.
  - unfold set_game_config_id, game_level. rewrite Hid, Hlevel.
    destruct (decide (Some TEMP_CONFIG = Some TEMP_CONFIG)); [|contradiction].
    destruct (decide ("game" = "game")); [|contradiction].
    unfold assign_id, GameConfig_init, ConfigFile_init.
    rewrite Hcls. change (fmt_s (Some TEMP_CONFIG)) with TEMP_CONFIG.
    change ("games/" +:+ TEMP_CONFIG +:+ ".yml") with "games/TEMP_CONFIG.yml".
    rewrite Hinit. reflexivity.
  - simpl. repeat split; try assumption.
    intros fs' h' value'. unfold set_game_config_id, game_level, assign_id. simpl.
    rewrite Hlevel. destruct (decide ("game" = "game")); [|contradiction].
    by rewrite Hk.
Qed.

Lemma promotion_to_marker_witness :
  exists self',
    set_game_config_id "/cfg" no_files ex_temp_heap (built_wrapper ex_temp)
      (Some TEMP_CONFIG) = (Ok tt, ex_temp_heap, self')
    /\ fst (fst (set_game_config_id "/cfg" no_files ex_temp_heap self'
                   (Some "halflife2-173")))
       = Raise AttributeError.
Proof.
  destruct (promotion_to_marker "/cfg" no_files ex_temp_heap (built_wrapper ex_temp)
              ltac:(vm_compute; reflexivity) ltac:(vm_compute; reflexivity)
              ltac:(vm_compute; reflexivity) ltac:(vm_compute; reflexivity))
    as (self' & Hset & _ & _ & _ & Hagain).
  exists self'. split; [exact Hset|]. by rewrite Hagain.
Defined.

(** ** The raw configuration of a wrapper *)

(** Assigning [raw_system_config] (or an alias) on a wrapper that was built
    never fails, and the property then returns the assigned dict.  Reads
    and writes follow it at the runner and game levels only: at level
    ["system"] the configuration has no proxy to repoint, and its local
    store stays the dict it was built over. *)
Theorem set_raw_config_built (CONFIG_DIR : string)
    (system_options : list (string * option_def))
    (import_runner :
       string -> result (list (string * option_def) * list (string * option_def)))
    (fs : filesystem) (h : heap) (rs gid lvl : option string)
    (lc : LutrisConfig) (h' : heap) (value : loc) :
  LutrisConfig_init CONFIG_DIR system_options import_runner fs h rs gid lvl = (Ok lc, h') ->
  exists lc',
    set_raw_config lc value = (Ok tt, lc')
    /\ raw_config lc' = value
    /\ local_store (lc_config lc') =
         (if decide (level lc = "system") then raw_config lc else value)
    /\ parent (lc_config lc') = parent (lc_config lc)
    /\ level lc' = level lc.
Proof.
  intros H. apply LutrisConfig_init_inv in H.
  destruct H as (_ & _ & ropts & gopts & sys & h1 & _ & Hsys & Hrest).
  unfold set_raw_config, raw_config, replace.
  assert (Hcase :
            (level lc = "system" /\ parent (lc_config lc) = None
             /\ config (lc_config lc) = Plain (data (lc_config lc)))
            \/ (level lc <> "system" /\ exists p, parent (lc_config lc) = Some p
                /\ config (lc_config lc) = Proxy (data (lc_config lc)))).
  { destruct Hsys as (_ & _ & Hspar & Hscfg & _).
    destruct Hrest as [(Hlvl & -> & _) | (Hlvl & runner & h2 & Hrun & Hrest)];
      [left; by rewrite Hscfg, Hspar|].
    right. split; [exact Hlvl|].
    destruct Hrun as (_ & _ & Hrpar & Hrcfg & _).
    destruct Hrest as [(_ & -> & _) | (_ & _ & _ & Hgpar & Hgcfg & _)].
    - exists sys. by rewrite Hrcfg, Hrpar.
    - exists runner. by rewrite Hgcfg, Hgpar. }
  destruct Hcase as [(Hlvl & Hpar & Hcfg) | (Hlvl & p & Hpar & Hcfg)].
  - simpl. rewrite Hpar. eexists. split; [reflexivity|]. simpl.
    unfold local_store. simpl. rewrite Hcfg, Hlvl.
    by destruct (decide ("system" = "system")).
  - simpl. rewrite Hpar, Hcfg. eexists. split; [reflexivity|]. simpl.
    by destruct (decide (level lc = "system")).
Qed.

Lemma set_raw_config_built_witness :
  exists lc',
    set_raw_config (built_wrapper ex_saved) 9%positive = (Ok tt, lc')
    /\ raw_config lc' = 9%positive
    /\ local_store (lc_config lc') = 9%positive.
Proof.
  destruct (set_raw_config_built _ _ _ _ _ _ _ _ _ _ 9%positive ex_saved_built)
    as (lc' & Hset & Hraw & Hlocal & _).
  exists lc'. split; [exact Hset|]. split; [exact Hraw|].
  rewrite Hlocal. vm_compute. reflexivity.
Defined.
